(** * quicker: header parser and packet factory

    A shallow embedding of [src/utilities/parsers/header.parser.ts]
    ([HeaderParser]) and of the packet factory that ships with it
    ([PacketFactory]), together with the Node.js [Buffer] primitives both
    rely on.  JavaScript numbers that hold offsets and small bit fields are
    modelled by [Z]; the arbitrary precision [Bignum] is [Z] as well.
    Exceptions are values of [Result]. *)

From Stdlib Require Import ZArith Lia Bool String Ascii List.
From Stdlib Require Import Strings.Byte.
Import ListNotations.
Open Scope Z_scope.

Set Implicit Arguments.

(* ================================================================= *)
(** ** Exceptions *)

(** [ConnectionErrorCodes]: only the code the parser raises. *)
Inductive ConnectionErrorCodes : Type :=
| PROTOCOL_VIOLATION.

(** What a call can throw: Node's [RangeError] (index or size out of
    range), JavaScript's [TypeError] (member access on [undefined]), the
    repository's own [QuicError], and the error a value type raises when it
    is constructed from a value outside its bounds. *)
Inductive Error : Type :=
| RangeError
| TypeError
| QuicError (code : ConnectionErrorCodes)
| ConstructionError.

Inductive Result (A : Type) : Type :=
| Ok (a : A)
| Throw (e : Error).

Arguments Ok {A} a.
Arguments Throw {A} e.

Definition bind {A B : Type} (m : Result A) (k : A -> Result B) : Result B :=
  match m with
  | Ok a => k a
  | Throw e => Throw e
  end.

Declare Scope result_scope.
Delimit Scope result_scope with result.
Notation "x <- m ;; k" := (bind m (fun x => k))
  (at level 61, m at next level, right associativity) : result_scope.
Notation "' p <- m ;; k" := (bind m (fun x => match x with p => k end))
  (at level 61, p pattern, m at next level, right associativity) : result_scope.
Open Scope result_scope.

Definition isOk {A : Type} (m : Result A) : bool :=
  match m with Ok _ => true | Throw _ => false end.

(* ================================================================= *)
(** ** Node.js Buffer *)

Module Buffer.

Definition t : Type := list byte.

Definition byteLength (b : t) : Z := Z.of_nat (length b).

(** [buffer.constants.MAX_LENGTH] of the Node releases the repository
    targets; [alloc] refuses larger sizes. *)
Definition kMaxLength : Z := 2147483647.

(** [buf.readUInt8(offset)]: throws outside [0, length). *)
Definition readUInt8 (b : t) (offset : Z) : Result Z :=
  if (offset <? 0) || (byteLength b <=? offset) then Throw RangeError
  else match nth_error b (Z.to_nat offset) with
       | Some x => Ok (Z.of_N (Byte.to_N x))
       | None => Throw RangeError
       end.

(** Index normalisation of [slice]: a negative index counts from the end,
    and every index is clamped to [0, length]. *)
Definition clampIndex (len i : Z) : Z :=
  if i <? 0 then Z.max 0 (len + i) else Z.min i len.

(** [buf.slice(start, end)]: never throws. *)
Definition slice (b : t) (start stop : Z) : t :=
  let s := clampIndex (byteLength b) start in
  let e := clampIndex (byteLength b) stop in
  firstn (Z.to_nat (e - s)) (skipn (Z.to_nat s) b).

(** [Buffer.alloc(size)]: a zero-filled buffer. *)
Definition alloc (size : Z) : Result t :=
  if (size <? 0) || (kMaxLength <? size) then Throw RangeError
  else Ok (repeat x00 (Z.to_nat size)).

(** [source.copy(target, targetStart, sourceStart, sourceEnd)], returning
    the target after the call.  Nothing is copied when the target has no
    room or the source range is empty; the source range is clamped to the
    source and the amount to the room left in the target. *)
Definition copy (source target : t) (targetStart sourceStart sourceEnd : Z)
  : Result t :=
  if (targetStart <? 0) || (sourceStart <? 0) then Throw RangeError
  else if (byteLength target <=? targetStart) || (sourceEnd <=? sourceStart)
  then Ok target
  else if byteLength source <? sourceStart then Throw RangeError
  else
    let room := Z.to_nat (byteLength target - targetStart) in
    let chunk := firstn room (slice source sourceStart sourceEnd) in
    Ok (firstn (Z.to_nat targetStart) target ++ chunk
        ++ skipn (Z.to_nat targetStart + length chunk) target).

(** One hexadecimal digit. *)
Definition hexDigit (c : ascii) : option N :=
  let n := N_of_ascii c in
  if ((48 <=? n) && (n <=? 57))%N then Some (n - 48)%N
  else if ((97 <=? n) && (n <=? 102))%N then Some (n - 87)%N
  else if ((65 <=? n) && (n <=? 70))%N then Some (n - 55)%N
  else None.

(** [Buffer.from(s, 'hex')]: decodes pairs of digits and stops at the
    first pair that is not hexadecimal. *)
Fixpoint fromHex (s : string) : t :=
  match s with
  | String hi (String lo rest) =>
      match hexDigit hi, hexDigit lo with
      | Some h, Some l =>
          match Byte.of_N (16 * h + l) with
          | Some b => b :: fromHex rest
          | None => []
          end
      | _, _ => []
      end
  | _ => []
  end.

End Buffer.

(* ================================================================= *)
(** ** Variable-length integers *)

Module VLIE.

(** Big-endian value of a sequence of octets. *)
Definition beValue (octets : list Z) : Z :=
  fold_left (fun acc o => acc * 256 + o) octets 0.

Definition octetsOf (b : Buffer.t) : list Z :=
  map (fun x => Z.of_N (Byte.to_N x)) b.

(** Modelled from the spec: [VLIE.decode] ([crypto/vlie.ts] is not part
    of the sources at hand).  The two leading bits of the octet at
    [offset] select a width of 1, 2, 4 or 8 octets; they are masked off
    and the remaining bits are read big-endian over that width.  A bounds
    error is raised when fewer octets remain than the width needs.  The
    result pairs the value with the offset after the integer. *)
Definition decode (buf : Buffer.t) (offset : Z) : Result (Z * Z) :=
  first <- Buffer.readUInt8 buf offset ;;
  let width := 2 ^ (Z.shiftr first 6) in
  if Buffer.byteLength buf <? offset + width then Throw RangeError
  else
    let rest := octetsOf (Buffer.slice buf (offset + 1) (offset + width)) in
    Ok (beValue (Z.land first 63 :: rest), offset + width).

End VLIE.

(* ================================================================= *)
(** ** Header values *)

(** [Bignum]: arbitrary precision, hence [Z]. *)
Definition Bignum : Type := Z.

(** Modelled from the spec: the value types of
    [packet/header/header.properties.ts], which is not part of the sources
    at hand.  A ConnectionID is an opaque octet sequence with its length;
    [newConnectionID] below is its constructor. *)
Record ConnectionID : Type := mkConnectionID {
  cidBuffer : Buffer.t;
  cidLength : Z
}.

(** Modelled from the spec: the lengths a connection ID may have, 0 or 4
    to 18 octets. *)
Definition validConnectionIDLength (length : Z) : bool :=
  (length =? 0) || ((4 <=? length) && (length <=? 18)).

(** Modelled from the spec: [new ConnectionID(buffer, length)].  The value
    types enforce their bounds at construction and fail fast: a [length]
    that is neither 0 nor from 4 to 18 raises the construction error.  The
    bound is on the length the caller states; the octets are taken as they
    are. *)
Definition newConnectionID (buffer : Buffer.t) (length : Z)
  : Result ConnectionID :=
  if validConnectionIDLength length
  then Ok (mkConnectionID buffer length)
  else Throw ConstructionError.

(** Modelled from the spec: a Version is its (four) octets, built by
    [new Version(buffer)]. *)
Record Version : Type := mkVersion {
  versionBuffer : Buffer.t
}.

(** Modelled from the spec: a PacketNumber is built either from the
    truncated octets on the wire or from a number. *)
Inductive PacketNumber : Type :=
| PacketNumberOfBuffer (b : Buffer.t)
| PacketNumberOfBignum (v : Bignum).

Module LongHeaderType.
(** Modelled from the spec: the enum [LongHeaderType]
    ([packet/header/long.header.ts] is not part of the sources at hand):
    the two type bits select 0 = Initial, 1 = 0-RTT, 2 = Handshake,
    3 = Retry. *)
Definition Initial : Z := 0.
Definition Protected0RTT : Z := 1.
Definition Handshake : Z := 2.
Definition Retry : Z := 3.
End LongHeaderType.

Module VersionValidation.
(** Modelled from the spec: [VersionValidation.IsVersionNegotationFlag]
    ([utilities/validation/version.validation.ts] is not part of the
    sources at hand): the version equals the reserved value 0x00000000,
    four zero octets. *)
Definition IsVersionNegotationFlag (v : Version) : bool :=
  match versionBuffer v with
  | [x00; x00; x00; x00] => true
  | _ => false
  end.
End VersionValidation.

(* ================================================================= *)
(** ** The header parser *)

Module HeaderParser.

(** Modelled from the spec: the header classes ([packet/header/*.ts] are
    not part of the sources at hand).  A header is one of three variants,
    which [getHeaderType()] tells apart. *)
Inductive HeaderType : Type :=
| HeaderType_LongHeader
| HeaderType_ShortHeader
| HeaderType_VersionNegotiationHeader.

(** Modelled from the spec: a LongHeader carries what the parser hands to
    [new LongHeader(type, dest, src, payloadLength, version,
    payloadLengthBuffer)] and what its setters attach afterwards: the
    truncated packet number, the Initial token and the raw span.  [type] is
    the number the parser computed, whatever it is. *)
Record LongHeader : Type := mkLongHeader {
  lhType : Z;
  lhDestConnectionID : ConnectionID;
  lhSrcConnectionID : ConnectionID;
  lhPayloadLength : option Bignum;
  lhVersion : Version;
  lhPayloadLengthBuffer : Buffer.t;
  lhTruncatedPacketNumber : option PacketNumber;
  lhLargestAcked : option PacketNumber;
  lhInitialTokens : option Buffer.t;
  lhParsedBuffer : option Buffer.t
}.

(** Modelled from the spec: a ShortHeader carries what the parser hands to
    [new ShortHeader(dest, keyPhaseBit, spinBit)], the truncated packet
    number and the raw span. *)
Record ShortHeader : Type := mkShortHeader {
  shDestConnectionID : ConnectionID;
  shKeyPhaseBit : bool;
  shSpinBit : bool;
  shTruncatedPacketNumber : option PacketNumber;
  shLargestAcked : option PacketNumber;
  shParsedBuffer : option Buffer.t
}.

(** Modelled from the spec: a VersionNegotiationHeader carries the two
    connection IDs of [new VersionNegotiationHeader(dest, src)] and nothing
    else; the parser calls no setter on it. *)
Record VersionNegotiationHeader : Type := mkVersionNegotiationHeader {
  vnDestConnectionID : ConnectionID;
  vnSrcConnectionID : ConnectionID
}.

Inductive BaseHeader : Type :=
| HLong (h : LongHeader)
| HShort (h : ShortHeader)
| HVersionNegotiation (h : VersionNegotiationHeader).

Record HeaderOffset : Type := mkHeaderOffset {
  header : BaseHeader;
  offset : Z
}.

Definition newLongHeader (type : Z) (dest src : ConnectionID)
    (payloadLength : Bignum) (version : Version)
    (payloadLengthBuffer : Buffer.t) : LongHeader :=
  mkLongHeader type dest src (Some payloadLength) version
               payloadLengthBuffer None None None None.

Definition newShortHeader (dest : ConnectionID) (keyPhaseBit spinBit : bool)
  : ShortHeader :=
  mkShortHeader dest keyPhaseBit spinBit None None None.

(** Modelled from the spec: [setTruncatedPacketNumber(truncated,
    largestAcked)] (the header classes are not part of the sources at
    hand) attaches the truncated packet number; the header keeps the
    packet number it was asked to reconstruct against. *)
Definition LongHeader_setTruncatedPacketNumber (h : LongHeader)
    (truncated largestAcked : PacketNumber) : LongHeader :=
  mkLongHeader (lhType h) (lhDestConnectionID h) (lhSrcConnectionID h)
               (lhPayloadLength h) (lhVersion h) (lhPayloadLengthBuffer h)
               (Some truncated) (Some largestAcked)
               (lhInitialTokens h) (lhParsedBuffer h).

Definition LongHeader_setInitialTokens (h : LongHeader) (tokens : Buffer.t)
  : LongHeader :=
  mkLongHeader (lhType h) (lhDestConnectionID h) (lhSrcConnectionID h)
               (lhPayloadLength h) (lhVersion h) (lhPayloadLengthBuffer h)
               (lhTruncatedPacketNumber h) (lhLargestAcked h)
               (Some tokens) (lhParsedBuffer h).

Definition LongHeader_setParsedBuffer (h : LongHeader) (parsed : Buffer.t)
  : LongHeader :=
  mkLongHeader (lhType h) (lhDestConnectionID h) (lhSrcConnectionID h)
               (lhPayloadLength h) (lhVersion h) (lhPayloadLengthBuffer h)
               (lhTruncatedPacketNumber h) (lhLargestAcked h)
               (lhInitialTokens h) (Some parsed).

Definition ShortHeader_setTruncatedPacketNumber (h : ShortHeader)
    (truncated largestAcked : PacketNumber) : ShortHeader :=
  mkShortHeader (shDestConnectionID h) (shKeyPhaseBit h) (shSpinBit h)
                (Some truncated) (Some largestAcked) (shParsedBuffer h).

Definition ShortHeader_setParsedBuffer (h : ShortHeader) (parsed : Buffer.t)
  : ShortHeader :=
  mkShortHeader (shDestConnectionID h) (shKeyPhaseBit h) (shSpinBit h)
                (shTruncatedPacketNumber h) (shLargestAcked h) (Some parsed).

(** Modelled from the spec: the getters of the three variants; a field a
    variant does not have reads as [undefined], here [None]. *)
Definition getHeaderType (h : BaseHeader) : HeaderType :=
  match h with
  | HLong _ => HeaderType_LongHeader
  | HShort _ => HeaderType_ShortHeader
  | HVersionNegotiation _ => HeaderType_VersionNegotiationHeader
  end.

Definition getPayloadLength (h : BaseHeader) : option Bignum :=
  match h with
  | HLong l => lhPayloadLength l
  | _ => None
  end.

Definition getTruncatedPacketNumber (h : BaseHeader) : option PacketNumber :=
  match h with
  | HLong l => lhTruncatedPacketNumber l
  | HShort s => shTruncatedPacketNumber s
  | HVersionNegotiation _ => None
  end.

Definition getLargestAcked (h : BaseHeader) : option PacketNumber :=
  match h with
  | HLong l => lhLargestAcked l
  | HShort s => shLargestAcked s
  | HVersionNegotiation _ => None
  end.

Definition getParsedBuffer (h : BaseHeader) : option Buffer.t :=
  match h with
  | HLong l => lhParsedBuffer l
  | HShort s => shParsedBuffer s
  | HVersionNegotiation _ => None
  end.

(** The expression [code === 0 ? code : code + 3] the parser applies to
    each connection-ID length nibble. *)
Definition decodeLength (code : Z) : Z :=
  if code =? 0 then code else code + 3.

(** The two nibbles of the connection-ID length octet, each decoded:
    [conLengths >> 4] and [conLengths & 0xF]. *)
Definition decodeConLengths (conLengths : Z) : Z * Z :=
  (decodeLength (Z.shiftr conLengths 4), decodeLength (Z.land conLengths 15)).

Definition parseVersionNegotiationHeader (buf : Buffer.t) (offset : Z)
    (type : Z) : Result HeaderOffset :=
  conLengths <- Buffer.readUInt8 buf offset ;;
  let offset := offset + 1 in
  let '(destLength, srcLength) := decodeConLengths conLengths in
  destConnectionID <-
    newConnectionID (Buffer.slice buf offset (offset + destLength)) destLength ;;
  let offset := offset + destLength in
  srcConnectionID <-
    newConnectionID (Buffer.slice buf offset (offset + srcLength)) srcLength ;;
  let offset := offset + srcLength in
  let header := mkVersionNegotiationHeader destConnectionID srcConnectionID in
  Ok (mkHeaderOffset (HVersionNegotiation header) offset).

(** The Initial-only token: its length as a variable-length integer, then
    that many octets copied into a fresh buffer.  Returns the token, if
    any, and the offset after it. *)
Definition parseInitialToken (buf : Buffer.t) (type : Z) (offset : Z)
  : Result (option Buffer.t * Z) :=
  if type =? LongHeaderType.Initial then
    '(tokenLength, offset) <- VLIE.decode buf offset ;;
    if 0 <? tokenLength then
      blank <- Buffer.alloc tokenLength ;;
      tokens <- Buffer.copy buf blank 0 offset (offset + tokenLength) ;;
      Ok (Some tokens, offset + tokenLength)
    else Ok (None, offset)
  else Ok (None, offset).

Definition parseLongHeader (buf : Buffer.t) (offset : Z)
  : Result HeaderOffset :=
  let startOffset := offset in
  byte0 <- Buffer.readUInt8 buf offset ;;
  let offset := offset + 1 in
  let firstByte := byte0 - 192 in
  let type := Z.shiftr firstByte 4 in
  if type =? LongHeaderType.Retry then Throw (QuicError PROTOCOL_VIOLATION)
  else
    let pnLength := Z.land firstByte 3 + 1 in
    let version := mkVersion (Buffer.slice buf offset (offset + 4)) in
    let offset := offset + 4 in
    if VersionValidation.IsVersionNegotationFlag version
    then parseVersionNegotiationHeader buf offset type
    else
      conLengths <- Buffer.readUInt8 buf offset ;;
      let offset := offset + 1 in
      let '(dcil, scil) := decodeConLengths conLengths in
      destConnectionID <-
        newConnectionID (Buffer.slice buf offset (offset + dcil)) dcil ;;
      let offset := offset + dcil in
      srcConnectionID <-
        newConnectionID (Buffer.slice buf offset (offset + scil)) scil ;;
      let offset := offset + scil in
      '(tokens, offset) <- parseInitialToken buf type offset ;;
      '(payloadLength, afterLength) <- VLIE.decode buf offset ;;
      blank <- Buffer.alloc (afterLength - offset) ;;
      payloadLengthBuffer <- Buffer.copy buf blank 0 offset afterLength ;;
      let offset := afterLength in
      let truncatedPacketNumber :=
        PacketNumberOfBuffer (Buffer.slice buf offset (offset + pnLength)) in
      let offset := offset + pnLength in
      let header :=
        newLongHeader type destConnectionID srcConnectionID payloadLength
                      version payloadLengthBuffer in
      let header :=
        LongHeader_setTruncatedPacketNumber header truncatedPacketNumber
                                            (PacketNumberOfBignum 0) in
      let header :=
        match tokens with
        | Some tk => LongHeader_setInitialTokens header tk
        | None => header
        end in
      let parsedBuffer := Buffer.slice buf startOffset offset in
      let header := LongHeader_setParsedBuffer header parsedBuffer in
      Ok (mkHeaderOffset (HLong header) offset).

Definition parseShortHeader (buf : Buffer.t) (offset : Z)
  : Result HeaderOffset :=
  let startOffset := offset in
  byte0 <- Buffer.readUInt8 buf offset ;;
  let offset := offset + 1 in
  let firstByte := byte0 - 64 in
  let spinBit := Z.land firstByte 32 =? 32 in
  let reserved1 := Z.land firstByte 16 =? 16 in
  let reserved2 := Z.land firstByte 8 =? 8 in
  let keyPhaseBit := Z.land firstByte 4 =? 4 in
  let pnLength := Z.land firstByte 3 + 1 in
  dcil <- Buffer.readUInt8 buf offset ;;
  blank <- Buffer.alloc dcil ;;
  destConIDBuffer <- Buffer.copy buf blank 0 offset (offset + dcil) ;;
  destConnectionID <- newConnectionID destConIDBuffer dcil ;;
  let offset := offset + dcil in
  let truncatedPacketNumber :=
    PacketNumberOfBuffer (Buffer.slice buf offset (offset + pnLength)) in
  let offset := offset + pnLength in
  let header := newShortHeader destConnectionID keyPhaseBit spinBit in
  let header :=
    ShortHeader_setTruncatedPacketNumber header truncatedPacketNumber
                                         (PacketNumberOfBignum 0) in
  let parsedBuffer := Buffer.slice buf startOffset offset in
  let header := ShortHeader_setParsedBuffer header parsedBuffer in
  Ok (mkHeaderOffset (HShort header) offset).

Definition parseHeader (buf : Buffer.t) (offset : Z) : Result HeaderOffset :=
  type <- Buffer.readUInt8 buf offset ;;
  if Z.land type 128 =? 128 then parseLongHeader buf offset
  else parseShortHeader buf offset.

(** The condition of the [while] loop of [parse]: the last header is a
    LongHeader with a defined payload length, which is then returned. *)
Definition continues (headerOffset : HeaderOffset) : option Bignum :=
  match getHeaderType (header headerOffset) with
  | HeaderType_LongHeader => getPayloadLength (header headerOffset)
  | _ => None
  end.

(** The [while] loop of [parse].  [fuel] bounds the number of further
    headers; [None] means the bound was reached. *)
Fixpoint parseLoop (fuel : nat) (buf : Buffer.t) (headerOffset : HeaderOffset)
    (totalSize : Bignum) (headerOffsets : list HeaderOffset)
  : option (Result (list HeaderOffset)) :=
  match continues headerOffset with
  | Some payloadLength =>
      let headerSize := offset headerOffset - totalSize in
      let totalSize := totalSize + payloadLength + headerSize in
      if totalSize <? Buffer.byteLength buf then
        match fuel with
        | O => None
        | S fuel' =>
            match parseHeader buf (totalSize - 4) with
            | Ok next =>
                parseLoop fuel' buf next totalSize (headerOffsets ++ [next])
            | Throw e => Some (Throw e)
            end
        end
      else Some (Ok headerOffsets)
  | None => Some (Ok headerOffsets)
  end.

(** [parse(buf)]; a datagram of [n] octets never needs more than [n]
    turns of the loop (see [parse_terminates]). *)
Definition parse (buf : Buffer.t) : option (Result (list HeaderOffset)) :=
  match parseHeader buf 0 with
  | Ok headerOffset => parseLoop (length buf) buf headerOffset 0 [headerOffset]
  | Throw e => Some (Throw e)
  end.

End HeaderParser.

(* ================================================================= *)
(** ** The packet factory *)

Module PacketFactory.

(** Modelled from the spec: frames ([frame/*.ts] is not part of the
    sources at hand) are opaque to the factory apart from their kind and
    their serialized octets; the spec names STREAM, CRYPTO, PADDING and
    ACK frames. *)
Inductive FrameType : Type :=
| PADDING
| ACK
| CRYPTO
| STREAM.

Record BaseFrame : Type := mkFrame {
  getType : FrameType;
  toBuffer : Buffer.t
}.

(** Modelled from the spec: [new PaddingFrame(length)] is a padding frame
    whose serialized size is [length] octets. *)
Definition PaddingFrame (length : Z) : BaseFrame :=
  mkFrame PADDING (repeat x00 (Z.to_nat length)).

(** Modelled from the spec: the connection ([quicker/connection.ts] is not
    part of the sources at hand) as far as the factory reads it; a getter
    that has nothing to return yields [undefined], here [None]. *)
Record Connection : Type := mkConnection {
  getDestConnectionID : option ConnectionID;
  getInitialDestConnectionID : option ConnectionID;
  getSrcConnectionID : option ConnectionID;
  getVersion : Version;
  getSpinBit : bool
}.

(** Modelled from the spec: the LongHeader the factory builds with
    [new LongHeader(type, dest, src, packetNumber, payloadLength,
    version)]. *)
Record LongHeader : Type := mkLongHeader {
  lhType : Z;
  lhDestConnectionID : option ConnectionID;
  lhSrcConnectionID : option ConnectionID;
  lhPacketNumber : PacketNumber;
  lhPayloadLength : Bignum;
  lhVersion : Version
}.

(** Modelled from the spec: [header.setPayloadLength(value)] sets the
    header's payload-length field. *)
Definition setPayloadLength (h : LongHeader) (value : Z) : LongHeader :=
  mkLongHeader (lhType h) (lhDestConnectionID h) (lhSrcConnectionID h)
               (lhPacketNumber h) value (lhVersion h).

Module ShortHeaderType.
Inductive t : Type := OneOctet | TwoOctet | FourOctet.
End ShortHeaderType.

(** Modelled from the spec: the ShortHeader the factory builds with
    [new ShortHeader(type, dest, packetNumber, keyPhaseBit, spinBit)]. *)
Record ShortHeader : Type := mkShortHeader {
  shType : ShortHeaderType.t;
  shDestConnectionID : option ConnectionID;
  shPacketNumber : PacketNumber;
  shKeyPhaseBit : bool;
  shSpinBit : bool
}.

(** Modelled from the spec: the VersionNegotiationHeader the factory
    builds ([packet/header/version.negotiation.header.ts] is not part of
    the sources at hand).  Its fields are the destination and the source
    connection ID, nothing else. *)
Record VersionNegotiationHeader : Type := mkVersionNegotiationHeader {
  vnDestConnectionID : option ConnectionID;
  vnSrcConnectionID : option ConnectionID
}.

(** Modelled from the spec: [new VersionNegotiationHeader(first, dest, src)],
    the call the factory makes.  The header has no field that would hold
    [first]. *)
Definition newVersionNegotiationHeader (first : Z)
    (dest src : option ConnectionID) : VersionNegotiationHeader :=
  mkVersionNegotiationHeader dest src.

(** Modelled from the spec: the packet classes ([packet/packet/*.ts] are
    not part of the sources at hand) pair a header with a frame sequence,
    or, for version negotiation, with the offered versions. *)
Inductive BasePacket : Type :=
| VersionNegotiationPacket (h : VersionNegotiationHeader) (versions : list Version)
| InitialPacket (h : LongHeader) (frames : list BaseFrame)
| RetryPacket (h : LongHeader) (frames : list BaseFrame)
| HandshakePacket (h : LongHeader) (frames : list BaseFrame)
| Protected0RTTPacket (h : LongHeader) (frames : list BaseFrame)
| ShortHeaderPacket (h : ShortHeader) (frames : list BaseFrame).

Definition getFrames (p : BasePacket) : list BaseFrame :=
  match p with
  | VersionNegotiationPacket _ _ => []
  | InitialPacket _ fs | RetryPacket _ fs | HandshakePacket _ fs
  | Protected0RTTPacket _ fs | ShortHeaderPacket _ fs => fs
  end.

(** Modelled from the spec: [getFrameSizes()] is the total serialized
    size of the packet's frames. *)
Definition getFrameSizes (frames : list BaseFrame) : Z :=
  fold_right (fun f acc => Buffer.byteLength (toBuffer f) + acc) 0 frames.

(** [Math.random()] returns a double in [0, 1).  Every such double is
    [m * 2^-1074] for an integer [0 <= m < 2^1074]; the draw is handed to
    the factory as that [m].  Multiplying by 128 is exact, so
    [Math.floor(Math.random() * 128)] is the integer quotient below. *)
Definition randomDenominator : Z := 2 ^ 1074.


Definition floorRandomTimes128 (m : Z) : Z := (m * 128) / randomDenominator.


Section Factory.

(** [Constants] ([utilities/constants.ts] is not part of the sources at
    hand). *)
Variable INITIAL_MIN_SIZE : Z.
Variable DEFAULT_AEAD_LENGTH : Z.
Variable SUPPORTED_VERSIONS : list string.

(** The serialized size of a long header, as [getSize()] of the header
    classes computes it (not part of the sources at hand). *)
Variable headerSize : LongHeader -> Z.

(** Modelled from the spec: [packet.getSize()] is the total serialized
    size of the packet, its header followed by its frames. *)
Definition getSize (h : LongHeader) (frames : list BaseFrame) : Z :=
  headerSize h + getFrameSizes frames.

(** [random] is the draw [Math.random()] returns during the call. *)
Definition createVersionNegotiationPacket (random : Z)
    (connection : Connection) : BasePacket :=
  let header :=
    newVersionNegotiationHeader (floorRandomTimes128 random)
      (getDestConnectionID connection)
      (getInitialDestConnectionID connection) in
  let versions :=
    fold_left (fun versions version =>
                 versions ++ [mkVersion (Buffer.fromHex version)])
              SUPPORTED_VERSIONS [] in
  VersionNegotiationPacket header versions.

Definition createInitialPacket (connection : Connection)
    (frames : list BaseFrame) : Result BasePacket :=
  let dstConnectionID :=
    match getDestConnectionID connection with
    | None => getInitialDestConnectionID connection
    | Some d => Some d
    end in
  let header :=
    mkLongHeader LongHeaderType.Initial dstConnectionID
                 (getSrcConnectionID connection) (PacketNumberOfBignum 0)
                 0 (getVersion connection) in
  let size := getSize header frames in
  (* [initial.getFrames()[0].getType()]: the first frame must exist *)
  first <- match nth_error frames 0 with
           | Some f => Ok f
           | None => Throw TypeError
           end ;;
  let frames :=
    if size <? INITIAL_MIN_SIZE
    then frames ++ [PaddingFrame (INITIAL_MIN_SIZE - size)]
    else frames in
  let header :=
    setPayloadLength header (getFrameSizes frames + DEFAULT_AEAD_LENGTH) in
  Ok (InitialPacket header frames).

Definition createRetryPacket (connection : Connection)
    (frames : list BaseFrame) : BasePacket :=
  let header :=
    mkLongHeader LongHeaderType.Retry (getDestConnectionID connection)
                 (getInitialDestConnectionID connection)
                 (PacketNumberOfBignum 0) (-1) (getVersion connection) in
  RetryPacket header frames.

Definition createHandshakePacket (connection : Connection)
    (frames : list BaseFrame) : BasePacket :=
  let dstConnectionID :=
    match getDestConnectionID connection with
    | None => getInitialDestConnectionID connection
    | Some d => Some d
    end in
  let header :=
    mkLongHeader LongHeaderType.Handshake dstConnectionID
                 (getSrcConnectionID connection) (PacketNumberOfBignum (-1))
                 (-1) (getVersion connection) in
  let header :=
    setPayloadLength header (getFrameSizes frames + DEFAULT_AEAD_LENGTH) in
  HandshakePacket header frames.

Definition createProtected0RTTPacket (connection : Connection)
    (frames : list BaseFrame) : BasePacket :=
  let header :=
    mkLongHeader LongHeaderType.Protected0RTT
                 (getInitialDestConnectionID connection)
                 (getSrcConnectionID connection) (PacketNumberOfBignum (-1))
                 (-1) (getVersion connection) in
  let header :=
    setPayloadLength header (getFrameSizes frames + DEFAULT_AEAD_LENGTH) in
  Protected0RTTPacket header frames.

Definition createShortHeaderPacket (connection : Connection)
    (frames : list BaseFrame) : BasePacket :=
  let header :=
    mkShortHeader ShortHeaderType.FourOctet (getDestConnectionID connection)
                  (PacketNumberOfBignum (-1)) false (getSpinBit connection) in
  ShortHeaderPacket header frames.

End Factory.

End PacketFactory.

(* ================================================================= *)
(** ** Vocabulary of the properties *)

Module Datagram.

Import HeaderParser.

(** [parseLoop] again, recording next to each header the offset
    [parseHeader] was called at.  [parseTrace_erase] shows that dropping
    the offsets gives [parse] back. *)
Fixpoint parseLoopTrace (fuel : nat) (buf : Buffer.t)
    (headerOffset : HeaderOffset) (totalSize : Bignum)
    (trace : list (Z * HeaderOffset))
  : option (Result (list (Z * HeaderOffset))) :=
  match continues headerOffset with
  | Some payloadLength =>
      let headerSize := offset headerOffset - totalSize in
      let totalSize := totalSize + payloadLength + headerSize in
      if totalSize <? Buffer.byteLength buf then
        match fuel with
        | O => None
        | S fuel' =>
            match parseHeader buf (totalSize - 4) with
            | Ok next =>
                parseLoopTrace fuel' buf next totalSize
                               (trace ++ [(totalSize - 4, next)])
            | Throw e => Some (Throw e)
            end
        end
      else Some (Ok trace)
  | None => Some (Ok trace)
  end.

Definition parseTrace (buf : Buffer.t)
  : option (Result (list (Z * HeaderOffset))) :=
  match parseHeader buf 0 with
  | Ok headerOffset =>
      parseLoopTrace (length buf) buf headerOffset 0 [(0, headerOffset)]
  | Throw e => Some (Throw e)
  end.

Definition mapResult {A B : Type} (f : A -> B) (r : Result A) : Result B :=
  match r with
  | Ok a => Ok (f a)
  | Throw e => Throw e
  end.

(** The offsets [parse] called [parseHeader] at, in order. *)
Definition parseStarts (buf : Buffer.t) : option (Result (list Z)) :=
  option_map (mapResult (map fst)) (parseTrace buf).

(** The octet at [start], when there is one. *)
Definition octetAt (buf : Buffer.t) (start : Z) : option Z :=
  match Buffer.readUInt8 buf start with
  | Ok b => Some b
  | Throw _ => None
  end.

(** The most significant bit of the octet at [start] is set: the
    dispatch rule picks the long-header path. *)
Definition hasLongHeaderBit (buf : Buffer.t) (start : Z) : bool :=
  match octetAt buf start with
  | Some b => Z.land b 128 =? 128
  | None => false
  end.

(** Both form bits of the octet at [start] are set. *)
Definition hasLongHeaderMarker (buf : Buffer.t) (start : Z) : bool :=
  match octetAt buf start with
  | Some b => Z.land b 192 =? 192
  | None => false
  end.

(** The two type bits (0x30) of the octet at [start]. *)
Definition typeBits (buf : Buffer.t) (start : Z) : option Z :=
  option_map (fun b => Z.land (Z.shiftr b 4) 3) (octetAt buf start).

(** The two packet-number-length bits of the octet at [start], plus one:
    the number of packet-number octets on the wire. *)
Definition pnLengthAt (buf : Buffer.t) (start : Z) : option Z :=
  option_map (fun b => Z.land b 3 + 1) (octetAt buf start).

(** The four octets after the first one are the zero version. *)
Definition versionIsZero (buf : Buffer.t) (start : Z) : bool :=
  VersionValidation.IsVersionNegotationFlag
    (mkVersion (Buffer.slice buf (start + 1) (start + 5))).

(** Where the packet whose long header was parsed from [start] ends: the
    payload length counts the octets after the length field, packet
    number included, so the end is the header's offset, less the
    packet-number octets already consumed, plus the payload length. *)
Definition packetEnd (buf : Buffer.t) (start : Z) (ho : HeaderOffset)
  : option Z :=
  match continues ho, pnLengthAt buf start with
  | Some payloadLength, Some pnLength =>
      Some (offset ho - pnLength + payloadLength)
  | _, _ => None
  end.

(** The datagram holds one long-header packet from [start] up to [stop]:
    both form bits are set, the header parses to a LongHeader of a known
    type, the packet number lies within the announced payload, and the
    packet ends at [stop]. *)
Definition longHeaderPacketAt (buf : Buffer.t) (start stop : Z) : bool :=
  hasLongHeaderMarker buf start &&
  match parseHeader buf start with
  | Ok ho =>
      match header ho, packetEnd buf start ho with
      | HLong l, Some e => (0 <=? lhType l) && (offset ho <=? e) && (e =? stop)
      | _, _ => false
      end
  | Throw _ => false
  end.

(** The datagram holds a short-header packet from [start] up to [stop]. *)
Definition shortHeaderPacketAt (buf : Buffer.t) (start stop : Z) : bool :=
  match parseHeader buf start with
  | Ok ho =>
      match header ho with
      | HShort _ => offset ho <=? stop
      | _ => false
      end
  | Throw _ => false
  end.

(** [pkt] is one long-header packet and nothing more. *)
Definition isLongHeaderPacket (pkt : Buffer.t) : bool :=
  longHeaderPacketAt pkt 0 (Buffer.byteLength pkt).

(** [pkt] is one short-header packet. *)
Definition isShortHeaderPacket (pkt : Buffer.t) : bool :=
  shortHeaderPacketAt pkt 0 (Buffer.byteLength pkt).

(** The datagram is two concatenated long-header packets, the second one
    starting at [boundary]. *)
Definition twoLongHeaderPackets (buf : Buffer.t) (boundary : Z) : bool :=
  longHeaderPacketAt buf 0 boundary &&
  longHeaderPacketAt buf boundary (Buffer.byteLength buf).

(** The datagram is a long-header packet immediately followed, at
    [boundary], by a short-header packet. *)
Definition longThenShortPacket (buf : Buffer.t) (boundary : Z) : bool :=
  longHeaderPacketAt buf 0 boundary &&
  shortHeaderPacketAt buf boundary (Buffer.byteLength buf).

(** The length a connection-ID length code stands for, in the spec's
    words: 0 for the code 0, the code plus 3 otherwise. *)
Definition specLength (code : Z) : Z :=
  match code with
  | 0 => 0
  | _ => code + 3
  end.

(** The two connection IDs of a header that carries both. *)
Definition connectionIDs (h : BaseHeader) : option (ConnectionID * ConnectionID) :=
  match h with
  | HLong l => Some (lhDestConnectionID l, lhSrcConnectionID l)
  | HVersionNegotiation vn => Some (vnDestConnectionID vn, vnSrcConnectionID vn)
  | HShort _ => None
  end.

Definition isLong (h : BaseHeader) : bool :=
  match h with HLong _ => true | _ => false end.

Definition isShort (h : BaseHeader) : bool :=
  match h with HShort _ => true | _ => false end.

Definition isVersionNegotiation (h : BaseHeader) : bool :=
  match h with HVersionNegotiation _ => true | _ => false end.

(** [R] holds between every entry of [l] and the one after it. *)
Fixpoint adjacent {A : Type} (R : A -> A -> Prop) (l : list A) : Prop :=
  match l with
  | a :: tl =>
      match tl with
      | b :: _ => R a b /\ adjacent R tl
      | [] => True
      end
  | [] => True
  end.

(** How the loop of [parse] picks the offset of the next header from the
    header before it: its offset plus its payload length, less four. *)
Definition nextStartRule (e1 e2 : Z * HeaderOffset) : Prop :=
  exists payloadLength,
    continues (snd e1) = Some payloadLength /\
    fst e2 = offset (snd e1) + payloadLength - 4.

(** Between two consecutive headers of a trace the offset grows by at
    least four octets, and the later one leaves more than four octets of a
    datagram of [len] octets. *)
Definition startsAdvance (len : Z) (e1 e2 : Z * HeaderOffset) : Prop :=
  fst e1 + 4 <= fst e2 /\ fst e2 + 4 < len.

(** The number of octets the packet-number-length bits of [byte0]
    announce. *)
Definition pnLengthOf (byte0 : Z) : Z := Z.land byte0 3 + 1.

End Datagram.

(** ** Sample datagrams *)

Module Samples.

(** A Handshake packet, version 1, no connection IDs, payload length 5:
    a one-octet packet number and four octets of payload. *)
Definition handshake_pn1 : Buffer.t :=
  [xe0; x00; x00; x00; x01; x00; x05; x01; xaa; x41; x00; x02].

(** The same with other payload octets. *)
Definition handshake_pn1' : Buffer.t :=
  [xe0; x00; x00; x00; x01; x00; x05; x01; xaa; xf0; x01; x02].

(** A Handshake packet with a four-octet packet number and one octet of
    payload. *)
Definition handshake_pn4 : Buffer.t :=
  [xe3; x00; x00; x00; x01; x00; x05; x01; x02; x03; x04; xbb].

(** A short-header packet: a connection ID of four octets, the first being
    its length, packet number [07], two octets of payload. *)
Definition short_packet : Buffer.t :=
  [x40; x04; x0a; x0b; x0c; x07; x10; x11].

(** Long-header bit set, form bit clear, type bits 11 (Retry). *)
Definition retry_bits_without_form_bit : Buffer.t :=
  [xb0; x00; x00; x00; x01; x00; x01; x07].

(** Type bits 11 (Retry) and the zero version. *)
Definition retry_bits_zero_version : Buffer.t :=
  [xf0; x00; x00; x00; x00; x00].

(** A version negotiation packet without connection IDs, offering
    version 1. *)
Definition version_negotiation : Buffer.t :=
  [xc0; x00; x00; x00; x00; x00; x00; x00; x00; x01].

Definition emptyConnection : PacketFactory.Connection :=
  PacketFactory.mkConnection None None None (mkVersion [x00; x00; x00; x01])
                             false.


Definition cryptoFrame : PacketFactory.BaseFrame :=
  PacketFactory.mkFrame PacketFactory.CRYPTO [x18; x00; x02; xab; xcd].

End Samples.

(* ================================================================= *)
(** ** Buffer and integer facts *)

Lemma newConnectionID_ok (buffer : Buffer.t) (length : Z) (c : ConnectionID) :
  newConnectionID buffer length = Ok c ->
  c = mkConnectionID buffer length /\ validConnectionIDLength length = true.
Proof.
  unfold newConnectionID. destruct (validConnectionIDLength length);
    [intros [= <-]; auto | discriminate].
Qed.

(** Peels the first computation off a hypothesis about a sequence of
    [bind]s, tests and pair patterns. *)
Ltac step_in H :=
  match type of H with
  | bind (newConnectionID ?b ?n) _ = _ =>
      let N := fresh "N" in
      let V := fresh "V" in
      destruct (newConnectionID b n) eqn:N; cbn [bind] in H;
      [apply newConnectionID_ok in N; destruct N as [-> V] | discriminate H]
  | bind ?m _ = _ =>
      let E := fresh "E" in
      destruct m eqn:E; cbn [bind] in H; [| discriminate H]
  | (if ?c then _ else _) = _ =>
      let C := fresh "C" in
      destruct c eqn:C; try discriminate H
  | (let '(_, _) := ?p in _) = _ =>
      let P := fresh "P" in
      destruct p eqn:P
  | (match ?p with (_, _) => _ end) = _ =>
      let P := fresh "P" in
      destruct p eqn:P
  end.

Ltac steps_in H := repeat step_in H.

Lemma readUInt8_range (b : Buffer.t) (off v : Z) :
  Buffer.readUInt8 b off = Ok v ->
  0 <= off < Buffer.byteLength b /\ 0 <= v < 256.
Proof.
  unfold Buffer.readUInt8. intros H.
  destruct ((off <? 0) || (Buffer.byteLength b <=? off)) eqn:C; [discriminate|].
  apply orb_false_iff in C. destruct C as [C1 C2].
  destruct (nth_error b (Z.to_nat off)) as [x|]; [|discriminate].
  injection H as <-. split; [lia|].
  pose proof (Byte.to_N_bounded x). lia.
Qed.

Lemma readUInt8_in_range (b : Buffer.t) (off : Z) :
  0 <= off < Buffer.byteLength b -> exists v, Buffer.readUInt8 b off = Ok v.
Proof.
  unfold Buffer.readUInt8, Buffer.byteLength. intros H.
  replace ((off <? 0) || (Z.of_nat (length b) <=? off)) with false
    by (symmetry; apply orb_false_iff; lia).
  destruct (nth_error b (Z.to_nat off)) as [x|] eqn:E; [eauto|].
  apply nth_error_None in E. lia.
Qed.

Lemma slice_in_range (b : Buffer.t) (start stop : Z) :
  0 <= start <= stop -> stop <= Buffer.byteLength b ->
  Buffer.slice b start stop
  = firstn (Z.to_nat (stop - start)) (skipn (Z.to_nat start) b).
Proof.
  intros H1 H2. unfold Buffer.slice, Buffer.clampIndex.
  replace (start <? 0) with false by (symmetry; apply Z.ltb_ge; lia).
  replace (stop <? 0) with false by (symmetry; apply Z.ltb_ge; lia).
  rewrite !Z.min_l by lia. reflexivity.
Qed.

(** A slice within the buffer has [stop - start] octets, ... *)
Lemma slice_length (b : Buffer.t) (start stop : Z) :
  0 <= start <= stop -> stop <= Buffer.byteLength b ->
  Buffer.byteLength (Buffer.slice b start stop) = stop - start.
Proof.
  intros H1 H2. rewrite slice_in_range by assumption.
  unfold Buffer.byteLength in *.
  rewrite length_firstn, length_skipn. lia.
Qed.

(** ... and its octet [i] is the octet [start + i] of the buffer. *)
Lemma slice_readUInt8 (b : Buffer.t) (start stop i : Z) :
  0 <= start -> 0 <= i -> start + i < stop -> stop <= Buffer.byteLength b ->
  Buffer.readUInt8 (Buffer.slice b start stop) i
  = Buffer.readUInt8 b (start + i).
Proof.
  intros Hs Hi Hlt Hstop. unfold Buffer.readUInt8.
  rewrite slice_length by lia.
  replace ((i <? 0) || (stop - start <=? i)) with false
    by (symmetry; apply orb_false_iff; lia).
  replace ((start + i <? 0) || (Buffer.byteLength b <=? start + i)) with false
    by (symmetry; apply orb_false_iff; lia).
  rewrite slice_in_range by lia.
  rewrite nth_error_firstn, nth_error_skipn.
  replace (Z.to_nat i <? Z.to_nat (stop - start))%nat with true
    by (symmetry; apply Nat.ltb_lt; lia).
  replace (Z.to_nat start + Z.to_nat i)%nat with (Z.to_nat (start + i)) by lia.
  reflexivity.
Qed.

Lemma beValue_from_nonneg (octets : list Z) (acc : Z) :
  Forall (fun o => 0 <= o) octets -> 0 <= acc ->
  0 <= fold_left (fun a o => a * 256 + o) octets acc.
Proof.
  intros F. revert acc. induction F as [|o os Ho _ IH]; intros acc Hacc; cbn.
  - exact Hacc.
  - apply IH. lia.
Qed.

Lemma octetsOf_nonneg (b : Buffer.t) : Forall (fun o => 0 <= o) (VLIE.octetsOf b).
Proof.
  unfold VLIE.octetsOf. apply Forall_map, Forall_forall. intros x _. lia.
Qed.

Lemma decode_range (buf : Buffer.t) (off v off' : Z) :
  VLIE.decode buf off = Ok (v, off') ->
  0 <= off /\ off + 1 <= off' <= Buffer.byteLength buf /\ 0 <= v.
Proof.
  unfold VLIE.decode. intros H. steps_in H.
  injection H as <- <-.
  apply readUInt8_range in E. destruct E as [Hoff Ha].
  assert (Hs : 0 <= Z.shiftr a 6) by (apply Z.shiftr_nonneg; lia).
  assert (Hw : 1 <= 2 ^ Z.shiftr a 6) by (apply (Z.pow_le_mono_r 2 0); lia).
  repeat split; try lia.
  unfold VLIE.beValue. apply beValue_from_nonneg; [|lia].
  constructor; [apply Z.land_nonneg; lia | apply octetsOf_nonneg].
Qed.

Lemma decodeLength_nonneg (code : Z) :
  0 <= code -> 0 <= HeaderParser.decodeLength code.
Proof. unfold HeaderParser.decodeLength. destruct (code =? 0); lia. Qed.

Lemma decodeConLengths_nonneg (c d s : Z) :
  0 <= c -> HeaderParser.decodeConLengths c = (d, s) -> 0 <= d /\ 0 <= s.
Proof.
  unfold HeaderParser.decodeConLengths. intros Hc [= <- <-]. split.
  - apply decodeLength_nonneg, Z.shiftr_nonneg, Hc.
  - apply decodeLength_nonneg, Z.land_nonneg. lia.
Qed.

Lemma pnLength_range (firstByte : Z) : 1 <= Z.land firstByte 3 + 1 <= 4.
Proof.
  change 3 with (Z.ones 2). rewrite Z.land_ones by lia.
  pose proof (Z.mod_pos_bound firstByte (2 ^ 2) ltac:(lia)). lia.
Qed.

(* ================================================================= *)
(** ** What one call of the parser returns *)

Section ParserShape.

Import HeaderParser.

Lemma parseVersionNegotiationHeader_inv (buf : Buffer.t) (p type : Z)
    (ho : HeaderOffset) :
  parseVersionNegotiationHeader buf p type = Ok ho ->
  exists vn, header ho = HVersionNegotiation vn.
Proof.
  unfold parseVersionNegotiationHeader. intros H. steps_in H.
  injection H as <-. cbn. eauto.
Qed.

Lemma parseInitialToken_range (buf : Buffer.t) (type p : Z)
    (tokens : option Buffer.t) (p' : Z) :
  parseInitialToken buf type p = Ok (tokens, p') -> p <= p'.
Proof.
  unfold parseInitialToken. intros H. steps_in H.
  - injection H as _ <-. apply decode_range in E. apply Z.ltb_lt in C0. lia.
  - injection H as _ <-. apply decode_range in E. lia.
  - injection H as _ <-. lia.
Qed.

(** A successful long-header parse returns either a version negotiation
    header or a LongHeader with everything the parser attaches. *)
Lemma parseLongHeader_inv (buf : Buffer.t) (p : Z) (ho : HeaderOffset) :
  parseLongHeader buf p = Ok ho ->
  (exists vn, header ho = HVersionNegotiation vn) \/
  (exists l pl,
      header ho = HLong l /\
      lhPayloadLength l = Some pl /\ 0 <= pl /\
      p + 8 <= offset ho /\
      lhLargestAcked l = Some (PacketNumberOfBignum 0) /\
      lhParsedBuffer l = Some (Buffer.slice buf p (offset ho)) /\
      exists octets,
        lhTruncatedPacketNumber l = Some (PacketNumberOfBuffer octets)).
Proof.
  unfold parseLongHeader. intros H. steps_in H.
  - left. eapply parseVersionNegotiationHeader_inv, H.
  - right. injection H as <-.
    apply readUInt8_range in E0.
    apply (decodeConLengths_nonneg (c:=a0)) in P; [|lia].
    apply parseInitialToken_range in E1.
    apply decode_range in E2.
    pose proof (pnLength_range (a - 192)) as Hpn.
    destruct o; cbn; eexists; eexists;
      (split; [reflexivity|]); cbn; repeat split; eauto; lia.
Qed.

Lemma parseShortHeader_inv (buf : Buffer.t) (p : Z) (ho : HeaderOffset) :
  parseShortHeader buf p = Ok ho ->
  exists s,
    header ho = HShort s /\
    p + 2 <= offset ho /\
    shLargestAcked s = Some (PacketNumberOfBignum 0) /\
    shParsedBuffer s = Some (Buffer.slice buf p (offset ho)) /\
    exists octets,
      shTruncatedPacketNumber s = Some (PacketNumberOfBuffer octets).
Proof.
  unfold parseShortHeader. intros H. steps_in H.
  injection H as <-. cbn.
  apply readUInt8_range in E0.
  pose proof (pnLength_range (a - 64)) as Hpn.
  eexists. split; [reflexivity|]. cbn. repeat split; eauto; lia.
Qed.

Lemma parseHeader_inv (buf : Buffer.t) (p : Z) (ho : HeaderOffset) :
  parseHeader buf p = Ok ho ->
  parseLongHeader buf p = Ok ho \/ parseShortHeader buf p = Ok ho.
Proof.
  unfold parseHeader. intros H. steps_in H; auto.
Qed.

(** When the loop of [parse] goes on after a header, that header ends at
    least eight octets after its start and announces a payload length
    that is not negative. *)
Lemma parseHeader_continues (buf : Buffer.t) (p : Z) (ho : HeaderOffset)
    (pl : Bignum) :
  parseHeader buf p = Ok ho -> continues ho = Some pl ->
  p + 8 <= offset ho /\ 0 <= pl.
Proof.
  intros H Hc. unfold continues in Hc.
  destruct (parseHeader_inv _ _ H) as [HL | HS].
  - destruct (parseLongHeader_inv _ _ HL)
      as [[vn Hvn] | (l & pl' & Hl & Hpl & Hnn & Hoff & _)].
    + rewrite Hvn in Hc. discriminate.
    + rewrite Hl in Hc. cbn in Hc. rewrite Hpl in Hc.
      injection Hc as <-. lia.
  - destruct (parseShortHeader_inv _ _ HS) as (s & Hs & _).
    rewrite Hs in Hc. discriminate.
Qed.

End ParserShape.

(* ================================================================= *)
(** ** The loop of [parse] *)

Section ParseLoop.

Import HeaderParser Datagram.

(** Each turn of the loop moves the running total at least four octets
    towards the end of the datagram, so [fuel] beyond the distance left is
    never used up. *)
Lemma parseLoop_enough_fuel (buf : Buffer.t) :
  forall (fuel : nat) (ho : HeaderOffset) (totalSize : Bignum)
         (acc : list HeaderOffset),
    (forall pl, continues ho = Some pl -> totalSize + 4 <= offset ho /\ 0 <= pl) ->
    Buffer.byteLength buf - totalSize <= Z.of_nat fuel ->
    exists r, parseLoop fuel buf ho totalSize acc = Some r.
Proof.
  induction fuel as [|fuel IH]; intros ho totalSize acc Hinv Hfuel; cbn.
  - destruct (continues ho) as [pl|]; [|eauto].
    destruct (Hinv pl eq_refl) as [Hoff Hpl].
    destruct (_ <? _) eqn:C; [|eauto].
    apply Z.ltb_lt in C. lia.
  - destruct (continues ho) as [pl|]; [|eauto].
    destruct (Hinv pl eq_refl) as [Hoff Hpl].
    destruct (_ <? _) eqn:C; [|eauto].
    apply Z.ltb_lt in C.
    destruct (parseHeader buf _) as [next|e] eqn:E; [|eauto].
    apply IH.
    + intros pl' Hc. destruct (parseHeader_continues _ _ E Hc). lia.
    + lia.
Qed.

(** [parse] always comes back: with a result or with an exception. *)
Lemma parse_terminates (buf : Buffer.t) : exists r, parse buf = Some r.
Proof.
  unfold parse. destruct (parseHeader buf 0) as [ho|e] eqn:E; [|eauto].
  apply parseLoop_enough_fuel.
  - intros pl Hc. destruct (parseHeader_continues _ _ E Hc). lia.
  - unfold Buffer.byteLength. lia.
Qed.

Lemma parseLoop_erase (buf : Buffer.t) :
  forall (fuel : nat) (ho : HeaderOffset) (totalSize : Bignum)
         (trace : list (Z * HeaderOffset)),
    parseLoop fuel buf ho totalSize (map snd trace) =
    option_map (mapResult (map snd)) (parseLoopTrace fuel buf ho totalSize trace).
Proof.
  induction fuel as [|fuel IH]; intros ho totalSize trace; cbn.
  - destruct (continues ho); [|reflexivity].
    destruct (_ <? _); reflexivity.
  - destruct (continues ho); [|reflexivity].
    destruct (_ <? _); [|reflexivity].
    destruct (parseHeader buf _) as [next|e]; [|reflexivity].
    rewrite <- IH, map_app. reflexivity.
Qed.

(** Forgetting the recorded offsets of [parseTrace] gives [parse]. *)
Lemma parseTrace_erase (buf : Buffer.t) :
  parse buf = option_map (mapResult (map snd)) (parseTrace buf).
Proof.
  unfold parse, parseTrace.
  destruct (parseHeader buf 0) as [ho|e]; [|reflexivity].
  apply (parseLoop_erase buf (length buf) ho 0 [(0, ho)]).
Qed.

Lemma parseLoopTrace_sound (buf : Buffer.t) :
  forall (fuel : nat) (ho : HeaderOffset) (totalSize : Bignum)
         (trace result : list (Z * HeaderOffset)),
    Forall (fun e => parseHeader buf (fst e) = Ok (snd e)) trace ->
    parseLoopTrace fuel buf ho totalSize trace = Some (Ok result) ->
    Forall (fun e => parseHeader buf (fst e) = Ok (snd e)) result.
Proof.
  induction fuel as [|fuel IH]; intros ho totalSize trace result Htr; cbn.
  - destruct (continues ho); [|intros [= <-]; exact Htr].
    destruct (_ <? _); [discriminate | intros [= <-]; exact Htr].
  - destruct (continues ho); [|intros [= <-]; exact Htr].
    destruct (_ <? _); [|intros [= <-]; exact Htr].
    destruct (parseHeader buf _) as [next|e] eqn:E; [|discriminate].
    apply IH. apply Forall_app. split; [exact Htr|].
    constructor; [exact E | constructor].
Qed.

(** Every entry of the trace is what [parseHeader] returns at the recorded
    offset. *)
Lemma parseTrace_sound (buf : Buffer.t) (result : list (Z * HeaderOffset)) :
  parseTrace buf = Some (Ok result) ->
  Forall (fun e => parseHeader buf (fst e) = Ok (snd e)) result.
Proof.
  unfold parseTrace. destruct (parseHeader buf 0) as [ho|e] eqn:E; [|discriminate].
  apply parseLoopTrace_sound. constructor; [exact E | constructor].
Qed.

(** Every entry of a result of [parse] is what [parseHeader] returns at
    some offset. *)
Lemma parse_entries (buf : Buffer.t) (result : list HeaderOffset) :
  parse buf = Some (Ok result) ->
  Forall (fun ho => exists start, parseHeader buf start = Ok ho) result.
Proof.
  rewrite parseTrace_erase.
  destruct (parseTrace buf) as [[trace|e]|] eqn:E; try discriminate.
  intros [= <-]. apply parseTrace_sound in E.
  apply Forall_map. eapply Forall_impl; [|exact E].
  intros [start ho] H. exists start. exact H.
Qed.

Lemma parseLoop_last_only (buf : Buffer.t) :
  forall (fuel : nat) (ho : HeaderOffset) (totalSize : Bignum)
         (before result : list HeaderOffset),
    Forall (fun e => isLong (header e) = true) before ->
    parseLoop fuel buf ho totalSize (before ++ [ho]) = Some (Ok result) ->
    exists before' final,
      result = before' ++ [final] /\
      Forall (fun e => isLong (header e) = true) before'.
Proof.
  induction fuel as [|fuel IH]; intros ho totalSize before result Hb; cbn.
  - destruct (continues ho); [|intros [= <-]; eauto].
    destruct (_ <? _); [discriminate | intros [= <-]; eauto].
  - destruct (continues ho) as [pl|] eqn:Hc; [|intros [= <-]; eauto].
    destruct (_ <? _); [|intros [= <-]; eauto].
    destruct (parseHeader buf _) as [next|e] eqn:E; [|discriminate].
    apply IH. apply Forall_app. split; [exact Hb|].
    constructor; [|constructor].
    unfold continues in Hc. destruct (header ho); cbn in *; congruence.
Qed.

(** In a result of [parse] every entry but the last is a LongHeader. *)
Lemma parse_last_only (buf : Buffer.t) (result : list HeaderOffset) :
  parse buf = Some (Ok result) ->
  exists before final,
    result = before ++ [final] /\
    Forall (fun e => isLong (header e) = true) before.
Proof.
  unfold parse. destruct (parseHeader buf 0) as [ho|e]; [|discriminate].
  apply (@parseLoop_last_only buf (length buf) ho 0 [] result). constructor.
Qed.

(** A ShortHeader entry is never followed by another entry. *)
Lemma parse_short_is_last (buf : Buffer.t)
    (result before after : list HeaderOffset) (ho : HeaderOffset) :
  parse buf = Some (Ok result) ->
  result = before ++ ho :: after ->
  isShort (header ho) = true ->
  after = [].
Proof.
  intros Hp Hr Hs.
  destruct (parse_last_only _ Hp) as (before' & final & Hr' & Hall).
  destruct after as [|a after]; [reflexivity|]. exfalso.
  assert (Hin : In ho before').
  { assert (H : before' ++ [final] = (before ++ ho :: removelast (a :: after))
                                       ++ [last (a :: after) final]).
    { rewrite <- app_assoc, <- app_comm_cons.
      rewrite <- (app_removelast_last final) by discriminate.
      congruence. }
    apply app_inj_tail in H. destruct H as [-> _].
    apply in_or_app. right. left. reflexivity. }
  rewrite Forall_forall in Hall. specialize (Hall _ Hin).
  destruct (header ho); discriminate.
Qed.

End ParseLoop.

(* ================================================================= *)
(** ** Connection-ID lengths *)

Section ConnectionIDLengths.

Import HeaderParser Datagram.

Lemma decodeLength_law (code : Z) :
  0 <= code <= 15 ->
  decodeLength code = specLength code /\
  (decodeLength code = 0 \/ 4 <= decodeLength code <= 18).
Proof.
  intros H. unfold decodeLength, specLength.
  destruct (Z.eqb_spec code 0) as [->|Hne]; [split; auto|].
  destruct code as [|c|c]; [contradiction | | lia].
  split; [reflexivity | right; lia].
Qed.

Lemma nibbles_range (c : Z) :
  0 <= c < 256 -> 0 <= Z.shiftr c 4 <= 15 /\ 0 <= Z.land c 15 <= 15.
Proof.
  intros H.
  assert (Hlo : Z.land c 15 = c mod 16)
    by (change 15 with (Z.ones 4); rewrite Z.land_ones by lia; reflexivity).
  rewrite Hlo, Z.shiftr_div_pow2 by lia.
  change (2 ^ 4) with 16.
  pose proof (Z.mod_pos_bound c 16 ltac:(lia)).
  pose proof (Z.div_pos c 16 ltac:(lia) ltac:(lia)).
  assert (c / 16 < 16) by (apply Z.div_lt_upper_bound; lia).
  lia.
Qed.

(** The lengths the two nibbles decode to are lengths a connection ID may
    have, so its construction goes through on the long-header paths. *)
Lemma validConnectionIDLength_decoded (code : Z) :
  0 <= code <= 15 -> validConnectionIDLength (decodeLength code) = true.
Proof.
  intros H. destruct (decodeLength_law H) as [_ Hlaw].
  unfold validConnectionIDLength.
  destruct Hlaw as [-> | Hlaw]; [reflexivity|].
  apply orb_true_iff. right. apply andb_true_iff. split; apply Z.leb_le; lia.
Qed.

Lemma newConnectionID_nibbles (c dcil scil : Z) :
  0 <= c < 256 ->
  decodeConLengths c = (dcil, scil) ->
  (forall b, newConnectionID b dcil = Ok (mkConnectionID b dcil)) /\
  (forall b, newConnectionID b scil = Ok (mkConnectionID b scil)).
Proof.
  intros Hc P. unfold decodeConLengths in P. injection P as <- <-.
  destruct (nibbles_range Hc) as [Hhi Hlo].
  unfold newConnectionID.
  rewrite (validConnectionIDLength_decoded Hhi),
          (validConnectionIDLength_decoded Hlo).
  split; reflexivity.
Qed.

Lemma parseVersionNegotiationHeader_lengths (buf : Buffer.t) (p type : Z)
    (ho : HeaderOffset) :
  parseVersionNegotiationHeader buf p type = Ok ho ->
  exists c dest src,
    Buffer.readUInt8 buf p = Ok c /\
    connectionIDs (header ho) = Some (dest, src) /\
    cidLength dest = decodeLength (Z.shiftr c 4) /\
    cidLength src = decodeLength (Z.land c 15).
Proof.
  unfold parseVersionNegotiationHeader. intros H. steps_in H.
  injection H as <-. unfold decodeConLengths in P. injection P as <- <-.
  cbn. eauto 8.
Qed.

Lemma parseLongHeader_lengths (buf : Buffer.t) (p : Z) (ho : HeaderOffset) :
  parseLongHeader buf p = Ok ho ->
  exists c dest src,
    Buffer.readUInt8 buf (p + 5) = Ok c /\
    connectionIDs (header ho) = Some (dest, src) /\
    cidLength dest = decodeLength (Z.shiftr c 4) /\
    cidLength src = decodeLength (Z.land c 15).
Proof.
  unfold parseLongHeader. intros H. steps_in H.
  - replace (p + 5) with (p + 1 + 4) by lia.
    eapply parseVersionNegotiationHeader_lengths, H.
  - injection H as <-. unfold decodeConLengths in P. injection P as <- <-.
    replace (p + 5) with (p + 1 + 4) by lia.
    exists a0. destruct o; cbn; eauto 8.
Qed.

(** C6.  A connection-ID length code in the nibble range 0..15 decodes to 0
    when it is 0 and to the code plus 3 otherwise, hence to 0 or to a
    length from 4 to 18; and whenever the long-header path returns a header
    (a LongHeader or a VersionNegotiationHeader), the lengths of its two
    connection IDs are the two nibbles of the octet after the version,
    decoded by that law. *)
Theorem connection_id_length_law :
  (forall code : Z,
      0 <= code <= 15 ->
      decodeLength code = specLength code /\
      (decodeLength code = 0 \/ 4 <= decodeLength code <= 18)) /\
  (forall (buf : Buffer.t) (start : Z) (ho : HeaderOffset),
      parseLongHeader buf start = Ok ho ->
      exists conLengths dest src,
        Buffer.readUInt8 buf (start + 5) = Ok conLengths /\
        connectionIDs (header ho) = Some (dest, src) /\
        cidLength dest = specLength (Z.shiftr conLengths 4) /\
        cidLength src = specLength (Z.land conLengths 15) /\
        (cidLength dest = 0 \/ 4 <= cidLength dest <= 18) /\
        (cidLength src = 0 \/ 4 <= cidLength src <= 18)).
Proof.
  split; [exact decodeLength_law|].
  intros buf start ho H.
  destruct (parseLongHeader_lengths _ _ H) as (c & dest & src & Hc & Hids & Hd & Hs).
  destruct (readUInt8_range _ _ Hc) as [_ Hrange].
  destruct (nibbles_range Hrange) as [Hhi Hlo].
  destruct (decodeLength_law Hhi) as [Ehi Rhi].
  destruct (decodeLength_law Hlo) as [Elo Rlo].
  exists c, dest, src. rewrite Hd, Hs.
  repeat split; auto.
Qed.

(** The law at work on a Handshake packet whose length octet is 0x51. *)
Lemma connection_id_length_law_witness :
  HeaderParser.decodeLength 5 = 8 /\
  exists ho dest src,
    parseLongHeader
      [xe0; x00; x00; x00; x01; x51;
       x01; x02; x03; x04; x05; x06; x07; x08;
       x0a; x0b; x0c; x0d; x01; x09] 0 = Ok ho /\
    connectionIDs (header ho) = Some (dest, src) /\
    cidLength dest = 8 /\ cidLength src = 4.
Proof.
  split.
  - exact (proj1 (proj1 connection_id_length_law 5 ltac:(lia))).
  - eexists.
    destruct (proj2 connection_id_length_law
                [xe0; x00; x00; x00; x01; x51;
                 x01; x02; x03; x04; x05; x06; x07; x08;
                 x0a; x0b; x0c; x0d; x01; x09] 0 _ eq_refl)
      as (c & dest & src & Hc & Hids & Hd & Hs & _).
    exists dest, src. injection Hc as <-.
    repeat split; assumption.
Defined.

End ConnectionIDLengths.

(* ================================================================= *)
(** ** What the parser attaches to a header *)

Section Attachments.

Import HeaderParser Datagram.

Lemma parseHeader_attachments (buf : Buffer.t) (start : Z) (ho : HeaderOffset) :
  parseHeader buf start = Ok ho ->
  isVersionNegotiation (header ho) = false ->
  getLargestAcked (header ho) = Some (PacketNumberOfBignum 0) /\
  getParsedBuffer (header ho) = Some (Buffer.slice buf start (offset ho)) /\
  exists octets,
    getTruncatedPacketNumber (header ho) = Some (PacketNumberOfBuffer octets).
Proof.
  intros H Hvn.
  destruct (parseHeader_inv _ _ H) as [HL | HS].
  - destruct (parseLongHeader_inv _ _ HL)
      as [[vn E] | (l & pl & E & _ & _ & _ & Hacked & Hbuf & Hpn)];
      rewrite E in *; [discriminate | auto].
  - destruct (parseShortHeader_inv _ _ HS) as (s & E & _ & Hacked & Hbuf & Hpn).
    rewrite E. auto.
Qed.

(** C9.  In every result of [parse], each LongHeader and each ShortHeader
    had its truncated packet number attached together with the packet
    number 0 as the one to reconstruct against: the parser has no other
    packet number to offer, the datagram being its only input. *)
Theorem parse_reconstructs_against_zero (buf : Buffer.t)
    (result : list HeaderOffset) :
  parse buf = Some (Ok result) ->
  Forall (fun ho =>
            isLong (header ho) = true \/ isShort (header ho) = true ->
            getLargestAcked (header ho) = Some (PacketNumberOfBignum 0) /\
            exists octets,
              getTruncatedPacketNumber (header ho)
              = Some (PacketNumberOfBuffer octets))
         result.
Proof.
  intros H. eapply Forall_impl; [|exact (parse_entries _ H)].
  intros ho [start Hs] Hkind. cbn beta.
  assert (Hvn : isVersionNegotiation (header ho) = false)
    by (destruct (header ho), Hkind; cbn in *; congruence).
  destruct (parseHeader_attachments _ _ Hs Hvn) as (Hacked & _ & Hpn).
  auto.
Qed.

(** A Handshake packet followed by a short-header packet: both entries
    were reconstructed against 0. *)
Lemma parse_reconstructs_against_zero_witness :
  exists l s,
    parse (Samples.handshake_pn4 ++ Samples.short_packet)
    = Some (Ok [mkHeaderOffset (HLong l) 11; mkHeaderOffset (HShort s) 18]) /\
    lhLargestAcked l = Some (PacketNumberOfBignum 0) /\
    shLargestAcked s = Some (PacketNumberOfBignum 0).
Proof.
  do 2 eexists. split; [vm_compute; reflexivity|].
  pose proof (@parse_reconstructs_against_zero
                (Samples.handshake_pn4 ++ Samples.short_packet) _ eq_refl) as H.
  inversion H as [|? ? H1 H']; subst. inversion H' as [|? ? H2 _]; subst.
  split.
  - exact (proj1 (H1 (or_introl eq_refl))).
  - exact (proj1 (H2 (or_intror eq_refl))).
Defined.

(** C5, as the code has it.  For every LongHeader and every ShortHeader
    that [parse] returns, the raw span attached to the header is the slice
    of the datagram from the offset the header was parsed at to the offset
    reached when its parsing finished.  A VersionNegotiationHeader is not
    covered: the parser attaches no span to it. *)
Theorem parsed_buffer_is_consumed_span (buf : Buffer.t)
    (trace : list (Z * HeaderOffset)) :
  parseTrace buf = Some (Ok trace) ->
  Forall (fun e =>
            isLong (header (snd e)) = true \/ isShort (header (snd e)) = true ->
            getParsedBuffer (header (snd e))
            = Some (Buffer.slice buf (fst e) (offset (snd e))))
         trace.
Proof.
  intros H. eapply Forall_impl; [|exact (parseTrace_sound _ H)].
  intros [start ho] Hs Hkind. cbn [fst snd] in *.
  assert (Hvn : isVersionNegotiation (header ho) = false)
    by (destruct (header ho), Hkind; cbn in *; congruence).
  exact (proj1 (proj2 (parseHeader_attachments _ _ Hs Hvn))).
Qed.

(** On a Handshake packet followed by a short-header packet the two spans
    are the octets 0..11 and 12..18 of the datagram. *)
Lemma parsed_buffer_is_consumed_span_witness :
  exists l s,
    parseTrace (Samples.handshake_pn4 ++ Samples.short_packet)
    = Some (Ok [(0, mkHeaderOffset (HLong l) 11);
                (12, mkHeaderOffset (HShort s) 18)]) /\
    lhParsedBuffer l
    = Some (Buffer.slice (Samples.handshake_pn4 ++ Samples.short_packet) 0 11) /\
    shParsedBuffer s
    = Some (Buffer.slice (Samples.handshake_pn4 ++ Samples.short_packet) 12 18).
Proof.
  do 2 eexists. split; [vm_compute; reflexivity|].
  pose proof (@parsed_buffer_is_consumed_span
                (Samples.handshake_pn4 ++ Samples.short_packet) _ eq_refl) as H.
  inversion H as [|? ? H1 H']; subst. inversion H' as [|? ? H2 _]; subst.
  split.
  - exact (H1 (or_introl eq_refl)).
  - exact (H2 (or_intror eq_refl)).
Defined.

(** C5, as stated, fails on a version negotiation packet: the header that
    comes back has no raw span at all, let alone the octets 0..5 the parser
    consumed. *)
Lemma version_negotiation_header_has_no_span :
  exists ho,
    parseTrace Samples.version_negotiation = Some (Ok [(0, ho)]) /\
    isVersionNegotiation (header ho) = true /\
    offset ho = 6 /\
    getParsedBuffer (header ho) = None /\
    getParsedBuffer (header ho)
    <> Some (Buffer.slice Samples.version_negotiation 0 (offset ho)).
Proof.
  eexists. split; [vm_compute; reflexivity|].
  cbn. repeat split; discriminate.
Qed.

End Attachments.

(* ================================================================= *)
(** ** The Retry check and the zero version *)

Section RetryAndVersion.

Import HeaderParser Datagram.

(** A property of octets can be checked on the 256 values of [byte]. *)
Lemma octet_cases (P : Z -> Prop) :
  (forall x : byte, P (Z.of_N (Byte.to_N x))) ->
  forall v : Z, 0 <= v < 256 -> P v.
Proof.
  intros H v Hv.
  destruct (Byte.of_N (Z.to_N v)) as [x|] eqn:E.
  - apply Byte.to_of_N in E. specialize (H x). rewrite E in H.
    rewrite Z2N.id in H by lia. exact H.
  - apply Byte.of_N_None_iff in E. lia.
Qed.

Lemma long_bit_of_first_octet (byte0 : Z) :
  0 <= byte0 < 256 -> (Z.land byte0 128 =? 128) = (128 <=? byte0).
Proof.
  revert byte0. apply octet_cases. intros x. destruct x; reflexivity.
Qed.

Lemma type_of_first_octet (byte0 : Z) :
  0 <= byte0 < 256 ->
  (Z.shiftr (byte0 - 192) 4 =? LongHeaderType.Retry) = (240 <=? byte0).
Proof.
  revert byte0. apply octet_cases. intros x. destruct x; reflexivity.
Qed.

(** A first octet 0xF0..0xFF is rejected before anything else is read. *)
Lemma retry_rejected (buf : Buffer.t) (start byte0 : Z) :
  Buffer.readUInt8 buf start = Ok byte0 ->
  240 <= byte0 ->
  parseHeader buf start = Throw (QuicError PROTOCOL_VIOLATION).
Proof.
  intros E Hge. destruct (readUInt8_range _ _ E) as [_ Hr].
  unfold parseHeader. rewrite E. cbn [bind].
  rewrite long_bit_of_first_octet by exact Hr.
  replace (128 <=? byte0) with true by (symmetry; apply Z.leb_le; lia).
  unfold parseLongHeader. rewrite E. cbn [bind].
  rewrite type_of_first_octet by exact Hr.
  replace (240 <=? byte0) with true by (symmetry; apply Z.leb_le; exact Hge).
  reflexivity.
Qed.

(** With such a first octet [parse] returns no entry at all. *)
Lemma parse_retry_rejected (buf : Buffer.t) (byte0 : Z) :
  Buffer.readUInt8 buf 0 = Ok byte0 ->
  240 <= byte0 ->
  parse buf = Some (Throw (QuicError PROTOCOL_VIOLATION)).
Proof.
  intros E Hge. unfold parse. rewrite (retry_rejected _ _ E Hge). reflexivity.
Qed.

(** C2, as the code has it.  When the first octet has the long-header bit
    set and is below 0xF0, and the version is zero, the parser hands over
    to version-negotiation parsing at the octet after the version; the
    header that comes back, and one does as soon as that octet exists, is a
    VersionNegotiationHeader with no packet number and no payload length. *)
Theorem zero_version_routes_to_version_negotiation (buf : Buffer.t)
    (start byte0 : Z) :
  Buffer.readUInt8 buf start = Ok byte0 ->
  hasLongHeaderBit buf start = true ->
  byte0 < 240 ->
  versionIsZero buf start = true ->
  parseHeader buf start
  = parseVersionNegotiationHeader buf (start + 5) (Z.shiftr (byte0 - 192) 4) /\
  (forall ho : HeaderOffset,
      parseHeader buf start = Ok ho ->
      isVersionNegotiation (header ho) = true /\
      getTruncatedPacketNumber (header ho) = None /\
      getPayloadLength (header ho) = None) /\
  (forall conLengths : Z,
      Buffer.readUInt8 buf (start + 5) = Ok conLengths ->
      exists ho, parseHeader buf start = Ok ho).
Proof.
  intros E Hbit Hlt Hzero.
  destruct (readUInt8_range _ _ E) as [_ Hr].
  unfold hasLongHeaderBit, octetAt in Hbit. rewrite E in Hbit.
  assert (Hroute : parseHeader buf start
                   = parseVersionNegotiationHeader buf (start + 5)
                       (Z.shiftr (byte0 - 192) 4)).
  { unfold parseHeader. rewrite E. cbn [bind]. rewrite Hbit.
    unfold parseLongHeader. rewrite E. cbn [bind].
    rewrite type_of_first_octet by exact Hr.
    replace (240 <=? byte0) with false by (symmetry; apply Z.leb_gt; exact Hlt).
    unfold versionIsZero in Hzero.
    replace (start + 1 + 4) with (start + 5) by lia.
    rewrite Hzero. reflexivity. }
  split; [exact Hroute|]. rewrite Hroute. split.
  - intros ho H. destruct (parseVersionNegotiationHeader_inv _ _ _ H) as [vn Hvn].
    rewrite Hvn. cbn. auto.
  - intros c Hc. unfold parseVersionNegotiationHeader. rewrite Hc. cbn [bind].
    destruct (readUInt8_range _ _ Hc) as [_ Hrc].
    destruct (decodeConLengths c) as [d s] eqn:P.
    destruct (newConnectionID_nibbles Hrc P) as [Hd Hs].
    rewrite Hd. cbn [bind]. rewrite Hs. cbn [bind]. eauto.
Qed.

(** A version negotiation packet whose first octet is 0xC0. *)
Lemma zero_version_routes_to_version_negotiation_witness :
  exists vn,
    parseHeader Samples.version_negotiation 0
    = Ok (mkHeaderOffset (HVersionNegotiation vn) 6) /\
    parseHeader Samples.version_negotiation 0
    = parseVersionNegotiationHeader Samples.version_negotiation 5 0.
Proof.
  eexists. split; [vm_compute; reflexivity|].
  exact (proj1 (@zero_version_routes_to_version_negotiation
                  Samples.version_negotiation 0 192
                  eq_refl eq_refl eq_refl eq_refl)).
Defined.

(** C2, as stated, fails when the type bits say Retry: the first octet 0xF0
    has the long-header bit set and the version is zero, yet [parse] raises
    the protocol violation where version-negotiation parsing would have
    returned a header. *)
Lemma retry_bits_zero_version_not_routed :
  hasLongHeaderBit Samples.retry_bits_zero_version 0 = true /\
  versionIsZero Samples.retry_bits_zero_version 0 = true /\
  parse Samples.retry_bits_zero_version
  = Some (Throw (QuicError PROTOCOL_VIOLATION)) /\
  isOk (parseVersionNegotiationHeader Samples.retry_bits_zero_version 5 3)
  = true /\
  parseHeader Samples.retry_bits_zero_version 0
  <> parseVersionNegotiationHeader Samples.retry_bits_zero_version 5 3.
Proof.
  repeat split; try (vm_compute; reflexivity).
  vm_compute. discriminate.
Qed.

(** C3 on the code.  The first octet 0xB0 selects the long-header path and
    its type bits are those of Retry, yet no error is raised: [parse]
    returns one entry, a LongHeader whose type is -1. *)
Theorem retry_bits_without_form_bit_parsed :
  hasLongHeaderBit Samples.retry_bits_without_form_bit 0 = true /\
  typeBits Samples.retry_bits_without_form_bit 0 = Some LongHeaderType.Retry /\
  exists l,
    parse Samples.retry_bits_without_form_bit
    = Some (Ok [mkHeaderOffset (HLong l) 8]) /\
    lhType l = -1.
Proof.
  split; [reflexivity|]. split; [reflexivity|].
  eexists. split; vm_compute; reflexivity.
Qed.

End RetryAndVersion.

(* ================================================================= *)
(** ** Compound packets *)

Section Compound.

Import HeaderParser Datagram.

Lemma adjacent_snoc {A : Type} (R : A -> A -> Prop) (l : list A) (a b : A) :
  adjacent R (l ++ [a]) -> R a b -> adjacent R ((l ++ [a]) ++ [b]).
Proof.
  induction l as [|x l IH]; intros Hl Hab.
  - cbn. auto.
  - destruct l as [|y l].
    + cbn in *. tauto.
    + cbn in Hl. destruct Hl as [Hxy Hl]. split; [exact Hxy|].
      apply IH; assumption.
Qed.

Lemma parseLoopTrace_adjacent (buf : Buffer.t) :
  forall (fuel : nat) (start : Z) (ho : HeaderOffset) (totalSize : Bignum)
         (before result : list (Z * HeaderOffset)),
    adjacent nextStartRule (before ++ [(start, ho)]) ->
    parseLoopTrace fuel buf ho totalSize (before ++ [(start, ho)])
    = Some (Ok result) ->
    adjacent nextStartRule result.
Proof.
  induction fuel as [|fuel IH]; intros start ho totalSize before result Hadj; cbn.
  - destruct (continues ho); [|intros [= <-]; exact Hadj].
    destruct (_ <? _); [discriminate | intros [= <-]; exact Hadj].
  - destruct (continues ho) as [pl|] eqn:Hc; [|intros [= <-]; exact Hadj].
    destruct (_ <? _); [|intros [= <-]; exact Hadj].
    destruct (parseHeader buf _) as [next|e] eqn:E; [|discriminate].
    apply IH. apply adjacent_snoc; [exact Hadj|].
    exists pl. cbn. split; [exact Hc | lia].
Qed.

(** Every header after the first is parsed at the offset of the header
    before it plus that header's payload length, less four, whatever the
    number of packet-number octets that header had. *)
Lemma parseTrace_next_start (buf : Buffer.t) (trace : list (Z * HeaderOffset)) :
  parseTrace buf = Some (Ok trace) -> adjacent nextStartRule trace.
Proof.
  unfold parseTrace. destruct (parseHeader buf 0) as [ho|e]; [|discriminate].
  apply (@parseLoopTrace_adjacent buf (length buf) 0 ho 0 [] trace).
  exact I.
Qed.

(** X18.  Whenever a second header is parsed, it is parsed as many octets
    before the end of the first packet as the first packet number is short
    of four octets: where the first packet ends exactly when that packet
    number took four octets. *)
Lemma second_start_vs_packet_end (buf : Buffer.t) (first second : HeaderOffset)
    (start2 pnLength : Z) (rest : list (Z * HeaderOffset)) :
  parseTrace buf = Some (Ok ((0, first) :: (start2, second) :: rest)) ->
  pnLengthAt buf 0 = Some pnLength ->
  packetEnd buf 0 first = Some (start2 + (4 - pnLength)).
Proof.
  intros H Hpn. apply parseTrace_next_start in H.
  destruct H as [(pl & Hc & Hs) _]. cbn in Hc, Hs.
  unfold packetEnd. rewrite Hc, Hpn. f_equal. lia.
Qed.

Lemma parseLoopTrace_step (buf : Buffer.t) (fuel : nat) (ho next : HeaderOffset)
    (totalSize pl : Bignum) (trace : list (Z * HeaderOffset)) :
  continues ho = Some pl ->
  offset ho + pl < Buffer.byteLength buf ->
  parseHeader buf (offset ho + pl - 4) = Ok next ->
  parseLoopTrace (S fuel) buf ho totalSize trace
  = parseLoopTrace fuel buf next (offset ho + pl)
                   (trace ++ [(offset ho + pl - 4, next)]).
Proof.
  intros Hc Hlt Hnext. cbn [parseLoopTrace]. rewrite Hc.
  replace (totalSize + pl + (offset ho - totalSize)) with (offset ho + pl) by lia.
  replace (offset ho + pl <? Buffer.byteLength buf) with true
    by (symmetry; apply Z.ltb_lt; exact Hlt).
  rewrite Hnext. reflexivity.
Qed.

Lemma parseLoopTrace_done (buf : Buffer.t) (fuel : nat) (ho : HeaderOffset)
    (totalSize : Bignum) (trace : list (Z * HeaderOffset)) :
  (forall pl, continues ho = Some pl -> Buffer.byteLength buf <= offset ho + pl) ->
  parseLoopTrace fuel buf ho totalSize trace = Some (Ok trace).
Proof.
  intros Hstop.
  assert (Hcond : forall pl, continues ho = Some pl ->
                    (totalSize + pl + (offset ho - totalSize)
                     <? Buffer.byteLength buf) = false).
  { intros pl Hc. apply Z.ltb_ge. specialize (Hstop pl Hc). lia. }
  destruct fuel; cbn [parseLoopTrace];
    destruct (continues ho) as [pl|]; try reflexivity;
    rewrite (Hcond pl eq_refl); reflexivity.
Qed.

Lemma longHeaderPacketAt_inv (buf : Buffer.t) (start stop : Z) :
  longHeaderPacketAt buf start stop = true ->
  exists ho pl pn,
    parseHeader buf start = Ok ho /\
    isLong (header ho) = true /\
    continues ho = Some pl /\
    pnLengthAt buf start = Some pn /\
    1 <= pn <= 4 /\
    packetEnd buf start ho = Some stop /\
    stop = offset ho - pn + pl /\
    start + 8 <= offset ho <= stop.
Proof.
  unfold longHeaderPacketAt. intros H.
  apply andb_prop in H. destruct H as [_ H].
  destruct (parseHeader buf start) as [ho|e] eqn:E; [|discriminate].
  destruct (header ho) as [l| |] eqn:Hh; try discriminate.
  destruct (packetEnd buf start ho) as [e|] eqn:He; [|discriminate].
  apply andb_prop in H. destruct H as [H Hstop].
  apply andb_prop in H. destruct H as [_ Hle].
  apply Z.eqb_eq in Hstop. apply Z.leb_le in Hle. subst e.
  pose proof He as He'. unfold packetEnd in He'.
  destruct (continues ho) as [pl|] eqn:Hc; [|discriminate].
  destruct (pnLengthAt buf start) as [pn|] eqn:Hpn; [|discriminate].
  injection He' as He'.
  destruct (parseHeader_continues _ _ E Hc) as [Hoff _].
  assert (Hrange : 1 <= pn <= 4).
  { unfold pnLengthAt in Hpn. destruct (octetAt buf start); [|discriminate].
    injection Hpn as <-. apply pnLength_range. }
  exists ho, pl, pn. rewrite Hh.
  repeat (split; [first [reflexivity | assumption]|]).
  split; lia.
Qed.

(** X16.  When the first packet number takes four octets, two concatenated
    long-header packets give exactly two entries, and the second header is
    parsed where the first packet ends. *)
Lemma compound_two_long_pn4 (buf : Buffer.t) (boundary : Z) :
  twoLongHeaderPackets buf boundary = true ->
  pnLengthAt buf 0 = Some 4 ->
  exists first second,
    parseTrace buf = Some (Ok [(0, first); (boundary, second)]) /\
    parse buf = Some (Ok [first; second]) /\
    isLong (header first) = true /\
    isLong (header second) = true /\
    packetEnd buf 0 first = Some boundary.
Proof.
  unfold twoLongHeaderPackets. intros H Hpn4.
  apply andb_prop in H. destruct H as [H1 H2].
  destruct (longHeaderPacketAt_inv _ _ _ H1)
    as (ho1 & pl1 & pn1 & E1 & L1 & C1 & P1 & _ & End1 & B1 & O1).
  destruct (longHeaderPacketAt_inv _ _ _ H2)
    as (ho2 & pl2 & pn2 & E2 & L2 & C2 & P2 & R2 & _ & B2 & O2).
  assert (pn1 = 4) by congruence. subst pn1.
  assert (Htrace : parseTrace buf = Some (Ok [(0, ho1); (boundary, ho2)])).
  { unfold parseTrace. rewrite E1.
    destruct (length buf) as [|n] eqn:Hlen;
      [unfold Buffer.byteLength in *; lia|].
    replace boundary with (offset ho1 + pl1 - 4) in E2 |- * by lia.
    rewrite (@parseLoopTrace_step buf n ho1 ho2 0 pl1 [(0, ho1)] C1);
      [|lia | exact E2].
    apply parseLoopTrace_done. intros pl Hc.
    assert (pl = pl2) by congruence. lia. }
  exists ho1, ho2. split; [exact Htrace|].
  rewrite parseTrace_erase, Htrace. repeat split; assumption.
Qed.

(** X17.  When the first packet number takes four octets and at least five
    octets follow the long-header packet, a long-header packet followed by
    a short-header packet gives exactly two entries, whatever follows the
    short header. *)
Lemma long_then_short_pn4 (buf : Buffer.t) (boundary : Z) :
  longThenShortPacket buf boundary = true ->
  pnLengthAt buf 0 = Some 4 ->
  boundary + 4 < Buffer.byteLength buf ->
  exists first second,
    parseTrace buf = Some (Ok [(0, first); (boundary, second)]) /\
    parse buf = Some (Ok [first; second]) /\
    isLong (header first) = true /\
    isShort (header second) = true.
Proof.
  unfold longThenShortPacket. intros H Hpn4 Hroom.
  apply andb_prop in H. destruct H as [H1 H2].
  destruct (longHeaderPacketAt_inv _ _ _ H1)
    as (ho1 & pl1 & pn1 & E1 & L1 & C1 & P1 & _ & End1 & B1 & O1).
  assert (pn1 = 4) by congruence. subst pn1.
  unfold shortHeaderPacketAt in H2.
  destruct (parseHeader buf boundary) as [ho2|e] eqn:E2; [|discriminate].
  destruct (header ho2) as [|sh|] eqn:Hh2; try discriminate.
  assert (Htrace : parseTrace buf = Some (Ok [(0, ho1); (boundary, ho2)])).
  { unfold parseTrace. rewrite E1.
    destruct (length buf) as [|n] eqn:Hlen;
      [unfold Buffer.byteLength in *; lia|].
    replace boundary with (offset ho1 + pl1 - 4) in E2 |- * by lia.
    rewrite (@parseLoopTrace_step buf n ho1 ho2 0 pl1 [(0, ho1)] C1);
      [|lia | exact E2].
    apply parseLoopTrace_done. intros pl Hc.
    unfold continues in Hc. rewrite Hh2 in Hc. discriminate. }
  exists ho1, ho2. split; [exact Htrace|].
  rewrite parseTrace_erase, Htrace, Hh2. repeat split; assumption.
Qed.

(** C1 on the code.  Two Handshake packets of twelve octets each, the
    first with a one-octet packet number.  The first packet ends at offset
    12, but the second header is parsed at offset 9, inside the payload of
    the first packet: the second entry of the result is a ShortHeader read
    from that payload and the second packet is never looked at. *)
Theorem compound_second_start_ignores_pn_length :
  twoLongHeaderPackets (Samples.handshake_pn1 ++ Samples.handshake_pn4) 12
  = true /\
  isLongHeaderPacket Samples.handshake_pn1 = true /\
  isLongHeaderPacket Samples.handshake_pn4 = true /\
  parseStarts (Samples.handshake_pn1 ++ Samples.handshake_pn4)
  = Some (Ok [0; 9]) /\
  exists l s,
    parse (Samples.handshake_pn1 ++ Samples.handshake_pn4)
    = Some (Ok [mkHeaderOffset (HLong l) 8; mkHeaderOffset (HShort s) 12]).
Proof.
  split; [vm_compute; reflexivity|].
  split; [vm_compute; reflexivity|]. split; [vm_compute; reflexivity|].
  split; [vm_compute; reflexivity|].
  do 2 eexists. vm_compute. reflexivity.
Qed.

(** C7 on the code.  A Handshake packet with a one-octet packet number,
    followed by a short-header packet.  The second header is parsed at
    offset 9, inside the payload of the first packet, where the octet 0xF0
    makes the parser raise the protocol violation: no entry is returned. *)
Theorem long_then_short_raises :
  longThenShortPacket (Samples.handshake_pn1' ++ Samples.short_packet) 12
  = true /\
  isLongHeaderPacket Samples.handshake_pn1' = true /\
  isShortHeaderPacket Samples.short_packet = true /\
  parse (Samples.handshake_pn1' ++ Samples.short_packet)
  = Some (Throw (QuicError PROTOCOL_VIOLATION)).
Proof.
  repeat split; vm_compute; reflexivity.
Qed.

(** The two lemmas for four-octet packet numbers at work. *)
Lemma compound_after_pn4 :
  exists first second,
    parseTrace (Samples.handshake_pn4 ++ Samples.handshake_pn1)
    = Some (Ok [(0, first); (12, second)]) /\
    parse (Samples.handshake_pn4 ++ Samples.handshake_pn1)
    = Some (Ok [first; second]).
Proof.
  destruct (@compound_two_long_pn4
              (Samples.handshake_pn4 ++ Samples.handshake_pn1) 12
              eq_refl eq_refl)
    as (first & second & Ht & Hp & _).
  eauto.
Defined.

Lemma long_pn4_then_short :
  exists first second,
    parseTrace (Samples.handshake_pn4 ++ Samples.short_packet)
    = Some (Ok [(0, first); (12, second)]) /\
    parse (Samples.handshake_pn4 ++ Samples.short_packet)
    = Some (Ok [first; second]) /\
    isShort (header second) = true /\
    offset second = 18 /\
    Buffer.byteLength (Samples.handshake_pn4 ++ Samples.short_packet) = 20.
Proof.
  destruct (@long_then_short_pn4
              (Samples.handshake_pn4 ++ Samples.short_packet) 12
              eq_refl eq_refl eq_refl)
    as (first & second & Ht & Hp & _ & Hs).
  exists first, second. repeat split; try assumption.
  vm_compute in Ht. injection Ht as _ <-. reflexivity.
Defined.

End Compound.

(* ================================================================= *)
(** ** The packet factory *)

Section FactoryFacts.

Import PacketFactory.

Variable INITIAL_MIN_SIZE : Z.
Variable DEFAULT_AEAD_LENGTH : Z.
Variable SUPPORTED_VERSIONS : list string.
Variable headerSize : LongHeader -> Z.

Lemma getFrameSizes_app (l1 l2 : list BaseFrame) :
  getFrameSizes (l1 ++ l2) = getFrameSizes l1 + getFrameSizes l2.
Proof.
  induction l1 as [|f l1 IH]; cbn; [reflexivity|].
  fold (getFrameSizes (l1 ++ l2)). fold (getFrameSizes l1). lia.
Qed.

Lemma getFrameSizes_padding (n : Z) :
  0 <= n -> getFrameSizes [PaddingFrame n] = n.
Proof.
  intros H. cbn. unfold Buffer.byteLength. rewrite repeat_length. lia.
Qed.

(** The Initial packet of a sequence that has a first frame: what is
    returned, and the two cases of the padding rule.  The rule measures the
    packet before the payload length is set; it gives the size of the
    returned packet when the size of a header does not depend on that
    field. *)
Lemma createInitialPacket_padding (connection : Connection)
    (f : BaseFrame) (fs : list BaseFrame) :
  (forall h v, headerSize (setPayloadLength h v) = headerSize h) ->
  exists h frames,
    createInitialPacket INITIAL_MIN_SIZE DEFAULT_AEAD_LENGTH headerSize
                        connection (f :: fs)
    = Ok (InitialPacket h frames) /\
    (getSize headerSize h (f :: fs) < INITIAL_MIN_SIZE ->
     frames = (f :: fs)
                ++ [PaddingFrame (INITIAL_MIN_SIZE - getSize headerSize h (f :: fs))] /\
     getSize headerSize h frames = INITIAL_MIN_SIZE) /\
    (INITIAL_MIN_SIZE <= getSize headerSize h (f :: fs) -> frames = f :: fs).
Proof.
  intros Hsize. unfold createInitialPacket. cbn [nth_error bind].
  do 2 eexists. split; [reflexivity|].
  unfold getSize. rewrite !Hsize.
  match goal with |- context [if ?c then _ else _] => destruct c eqn:C end.
  - apply Z.ltb_lt in C. split; [|intros H; lia].
    intros _. split; [reflexivity|].
    rewrite getFrameSizes_app, getFrameSizes_padding; lia.
  - apply Z.ltb_ge in C. split; [intros H; lia|]. reflexivity.
Qed.

(** C4 on the code.  With no frame at all the Initial packet is never
    built: reading the kind of the first frame raises a TypeError, whatever
    the constants and the connection. *)
Theorem createInitialPacket_without_frames (connection : Connection) :
  createInitialPacket INITIAL_MIN_SIZE DEFAULT_AEAD_LENGTH headerSize
                      connection []
  = Throw TypeError.
Proof. reflexivity. Qed.

(** C8.  The Handshake and the 0-RTT packet are always returned, and the
    Initial packet is returned for every sequence that has a first frame;
    the payload length of the header of each returned packet is the total
    serialized size of the frames of that packet (the padding frame
    included, when one was added) plus the AEAD expansion constant. *)
Theorem payload_length_is_frames_plus_aead (connection : Connection)
    (frames : list BaseFrame) :
  (exists h,
      createHandshakePacket DEFAULT_AEAD_LENGTH connection frames
      = HandshakePacket h frames /\
      lhPayloadLength h = getFrameSizes frames + DEFAULT_AEAD_LENGTH) /\
  (exists h,
      createProtected0RTTPacket DEFAULT_AEAD_LENGTH connection frames
      = Protected0RTTPacket h frames /\
      lhPayloadLength h = getFrameSizes frames + DEFAULT_AEAD_LENGTH) /\
  (forall p,
      createInitialPacket INITIAL_MIN_SIZE DEFAULT_AEAD_LENGTH headerSize
                          connection frames = Ok p ->
      exists h,
        p = InitialPacket h (getFrames p) /\
        lhPayloadLength h = getFrameSizes (getFrames p) + DEFAULT_AEAD_LENGTH) /\
  (frames <> [] ->
   exists p,
     createInitialPacket INITIAL_MIN_SIZE DEFAULT_AEAD_LENGTH headerSize
                         connection frames = Ok p).
Proof.
  split; [eexists; split; reflexivity|].
  split; [eexists; split; reflexivity|].
  split.
  - intros p H. unfold createInitialPacket in H.
    destruct frames as [|f fs]; [discriminate|].
    cbn [nth_error bind] in H. injection H as <-.
    eexists. split; reflexivity.
  - intros Hne. destruct frames as [|f fs]; [contradiction|].
    unfold createInitialPacket. cbn [nth_error bind]. eauto.
Qed.

End FactoryFacts.

(** An Initial packet for one CRYPTO frame of five octets, with a minimum
    size of 1280, a header of 18 octets and an AEAD expansion of 16: 1257
    octets of padding are added and the payload length is 1278. *)
Lemma payload_length_is_frames_plus_aead_witness :
  exists h frames,
    PacketFactory.createInitialPacket 1280 16 (fun _ => 18)
      Samples.emptyConnection [Samples.cryptoFrame]
    = Ok (PacketFactory.InitialPacket h frames) /\
    PacketFactory.lhPayloadLength h = 1278.
Proof.
  destruct (proj2 (proj2 (proj2
              (@payload_length_is_frames_plus_aead 1280 16 (fun _ => 18)
                 Samples.emptyConnection [Samples.cryptoFrame])))
              ltac:(discriminate)) as [p Hp].
  destruct (proj1 (proj2 (proj2
              (@payload_length_is_frames_plus_aead 1280 16 (fun _ => 18)
                 Samples.emptyConnection [Samples.cryptoFrame]))) p Hp)
    as (h & Hshape & Hlen).
  exists h, (PacketFactory.getFrames p).
  split; [rewrite Hp, Hshape at 1; reflexivity|].
  rewrite Hlen. injection Hp as <-. vm_compute. reflexivity.
Defined.

(* ================================================================= *)
(** ** The random first octet of a version negotiation packet *)

Section RandomFirstOctet.

Import PacketFactory.

Variable SUPPORTED_VERSIONS : list string.






End RandomFirstOctet.



(* ================================================================= *)
(** ** Progress of the loop of [parse] *)

Section Progress.

Import HeaderParser Datagram.

Lemma parseLoopTrace_advances (buf : Buffer.t) :
  forall (fuel : nat) (start : Z) (ho : HeaderOffset) (totalSize : Bignum)
         (before result : list (Z * HeaderOffset)),
    parseHeader buf start = Ok ho ->
    adjacent (startsAdvance (Buffer.byteLength buf)) (before ++ [(start, ho)]) ->
    parseLoopTrace fuel buf ho totalSize (before ++ [(start, ho)])
    = Some (Ok result) ->
    adjacent (startsAdvance (Buffer.byteLength buf)) result.
Proof.
  induction fuel as [|fuel IH];
    intros start ho totalSize before result Hparsed Hadj; cbn.
  - destruct (continues ho); [|intros [= <-]; exact Hadj].
    destruct (_ <? _); [discriminate | intros [= <-]; exact Hadj].
  - destruct (continues ho) as [pl|] eqn:Hc; [|intros [= <-]; exact Hadj].
    destruct (_ <? _) eqn:C; [|intros [= <-]; exact Hadj].
    destruct (parseHeader buf (_ - 4)) as [next|e] eqn:E; [|discriminate].
    apply IH; [exact E|]. apply adjacent_snoc; [exact Hadj|].
    destruct (parseHeader_continues _ _ Hparsed Hc) as [Hoff Hpl].
    apply Z.ltb_lt in C. unfold startsAdvance. cbn [fst]. lia.
Qed.

(** The loop only ever appends to what it has gathered. *)
Lemma parseLoopTrace_prefix (buf : Buffer.t) :
  forall (fuel : nat) (ho : HeaderOffset) (totalSize : Bignum)
         (trace result : list (Z * HeaderOffset)),
    parseLoopTrace fuel buf ho totalSize trace = Some (Ok result) ->
    exists rest, result = trace ++ rest.
Proof.
  induction fuel as [|fuel IH]; intros ho totalSize trace result; cbn.
  - destruct (continues ho);
      [|intros [= <-]; exists []; symmetry; apply app_nil_r].
    destruct (_ <? _);
      [discriminate | intros [= <-]; exists []; symmetry; apply app_nil_r].
  - destruct (continues ho);
      [|intros [= <-]; exists []; symmetry; apply app_nil_r].
    destruct (_ <? _);
      [|intros [= <-]; exists []; symmetry; apply app_nil_r].
    destruct (parseHeader buf _) as [next|e]; [|discriminate].
    intros H. destruct (IH _ _ _ _ H) as [rest ->].
    rewrite <- app_assoc. eauto.
Qed.

Lemma adjacent_advance_count (len : Z) :
  forall (l : list (Z * HeaderOffset)) (e : Z * HeaderOffset),
    adjacent (startsAdvance len) (e :: l) -> l <> [] ->
    fst e + 4 * Z.of_nat (length l) + 4 < len.
Proof.
  induction l as [|x l IH]; intros e Hadj Hne; [contradiction|].
  destruct l as [|y l].
  - cbn in Hadj. destruct Hadj as [[H1 H2] _]. cbn [length]. lia.
  - destruct Hadj as [[H1 H2] Hrest].
    specialize (IH x Hrest ltac:(discriminate)).
    cbn [length] in *. lia.
Qed.

(** X1.  The loop of [parse] always comes to an end, and it moves forward:
    in the sequence of offsets headers were parsed at, the first is 0, each
    further one lies at least four octets after the one before and more
    than four octets before the end of the datagram, so that a datagram of
    [n] octets gives fewer than [n / 4 + 1] headers. *)
Theorem parse_moves_forward (buf : Buffer.t) :
  (exists r, parse buf = Some r) /\
  (forall trace : list (Z * HeaderOffset),
      parseTrace buf = Some (Ok trace) ->
      (exists first rest, trace = (0, first) :: rest) /\
      adjacent (startsAdvance (Buffer.byteLength buf)) trace /\
      4 * (Z.of_nat (length trace) - 1) < Buffer.byteLength buf).
Proof.
  split; [apply parse_terminates|].
  intros trace H. unfold parseTrace in H.
  destruct (parseHeader buf 0) as [ho|e] eqn:E; [|discriminate].
  assert (Hlen : 0 < Buffer.byteLength buf).
  { unfold parseHeader in E.
    destruct (Buffer.readUInt8 buf 0) as [b|] eqn:Eb; [|discriminate].
    apply readUInt8_range in Eb. lia. }
  assert (Hadj : adjacent (startsAdvance (Buffer.byteLength buf)) trace).
  { exact (@parseLoopTrace_advances buf (length buf) 0 ho 0 [] trace E I H). }
  assert (Hfirst : exists rest, trace = (0, ho) :: rest).
  { pose proof (@parseLoopTrace_prefix buf (length buf) ho 0 [(0, ho)] trace H)
      as [rest ->]. exists rest. reflexivity. }
  destruct Hfirst as [rest ->].
  split; [eauto|]. split; [exact Hadj|].
  destruct rest as [|x rest]; [cbn; lia|].
  pose proof (@adjacent_advance_count _ (x :: rest) (0, ho) Hadj
                ltac:(discriminate)) as Hc.
  cbn [fst length] in *. lia.
Qed.

End Progress.

(* ================================================================= *)
(** ** The errors of the parser *)

Section Errors.

Import HeaderParser Datagram.

Lemma readUInt8_throws (b : Buffer.t) (off : Z) (e : Error) :
  Buffer.readUInt8 b off = Throw e -> e = RangeError.
Proof.
  unfold Buffer.readUInt8. destruct (_ || _); [congruence|].
  destruct (nth_error _ _); congruence.
Qed.

Lemma alloc_throws (size : Z) (e : Error) :
  Buffer.alloc size = Throw e -> e = RangeError.
Proof. unfold Buffer.alloc. destruct (_ || _); congruence. Qed.

Lemma copy_throws (source target : Buffer.t) (ts ss se : Z) (e : Error) :
  Buffer.copy source target ts ss se = Throw e -> e = RangeError.
Proof.
  unfold Buffer.copy. destruct (_ || _); [congruence|].
  destruct (_ || _); [congruence|]. destruct (_ <? _); congruence.
Qed.

Lemma decode_throws (buf : Buffer.t) (off : Z) (e : Error) :
  VLIE.decode buf off = Throw e -> e = RangeError.
Proof.
  unfold VLIE.decode.
  destruct (Buffer.readUInt8 buf off) as [b|e'] eqn:E; cbn [bind].
  - destruct (_ <? _); congruence.
  - intros [= <-]. exact (readUInt8_throws _ _ E).
Qed.

(** Follows a failing sequence of [bind]s down to the call that threw. *)
Ltac throw_in H :=
  repeat match type of H with
  | bind ?m _ = Throw _ =>
      let E := fresh "E" in
      destruct m eqn:E; cbn [bind] in H;
      [| injection H as <-;
         first [ exact (readUInt8_throws _ _ E)
               | exact (alloc_throws _ E)
               | exact (copy_throws _ _ _ _ _ E)
               | exact (decode_throws _ _ E) ] ]
  | (if ?c then _ else _) = Throw _ => destruct c eqn:?
  | (let '(_, _) := ?p in _) = Throw _ => destruct p eqn:?
  | (match ?p with (_, _) => _ end) = Throw _ => destruct p eqn:?
  | Ok _ = Throw _ => discriminate H
  end.

Lemma newConnectionID_throws (b : Buffer.t) (n : Z) (e : Error) :
  newConnectionID b n = Throw e ->
  e = ConstructionError /\ validConnectionIDLength n = false.
Proof.
  unfold newConnectionID.
  destruct (validConnectionIDLength n); [discriminate | intros [= <-]; auto].
Qed.

Lemma parseVersionNegotiationHeader_throws (buf : Buffer.t) (p type : Z)
    (e : Error) :
  parseVersionNegotiationHeader buf p type = Throw e -> e = RangeError.
Proof.
  unfold parseVersionNegotiationHeader. intros H.
  destruct (Buffer.readUInt8 buf p) as [c|e'] eqn:E; cbn [bind] in H;
    [|injection H as <-; exact (readUInt8_throws _ _ E)].
  destruct (readUInt8_range _ _ E) as [_ Hc].
  destruct (decodeConLengths c) as [d s] eqn:P.
  destruct (newConnectionID_nibbles Hc P) as [Hd Hs].
  rewrite Hd in H. cbn [bind] in H. rewrite Hs in H. cbn [bind] in H.
  discriminate H.
Qed.

Lemma parseInitialToken_throws (buf : Buffer.t) (type p : Z) (e : Error) :
  parseInitialToken buf type p = Throw e -> e = RangeError.
Proof.
  unfold parseInitialToken. intros H. throw_in H.
Qed.

(** The short-header path throws a RangeError, or the construction error
    when the length octet is not a length a connection ID may have. *)
Lemma parseShortHeader_throws (buf : Buffer.t) (p : Z) (e : Error) :
  parseShortHeader buf p = Throw e ->
  e = RangeError \/
  (e = ConstructionError /\
   exists dcil, Buffer.readUInt8 buf (p + 1) = Ok dcil /\
                validConnectionIDLength dcil = false).
Proof.
  unfold parseShortHeader. intros H.
  destruct (Buffer.readUInt8 buf p) as [byte0|e'] eqn:E0; cbn [bind] in H;
    [|injection H as <-; left; exact (readUInt8_throws _ _ E0)].
  destruct (Buffer.readUInt8 buf (p + 1)) as [dcil|e'] eqn:E1; cbn [bind] in H;
    [|injection H as <-; left; exact (readUInt8_throws _ _ E1)].
  destruct (Buffer.alloc dcil) as [blank|e'] eqn:E2; cbn [bind] in H;
    [|injection H as <-; left; exact (alloc_throws _ E2)].
  destruct (Buffer.copy buf blank 0 (p + 1) (p + 1 + dcil)) as [cid|e'] eqn:E3;
    cbn [bind] in H;
    [|injection H as <-; left; exact (copy_throws _ _ _ _ _ E3)].
  destruct (newConnectionID cid dcil) as [c|e'] eqn:E4; cbn [bind] in H;
    [discriminate H|].
  injection H as <-. destruct (newConnectionID_throws _ _ E4) as [-> Hv].
  right. eauto.
Qed.

Lemma parseLongHeader_throws (buf : Buffer.t) (p : Z) (e : Error) :
  parseLongHeader buf p = Throw e ->
  e = RangeError \/
  (e = QuicError PROTOCOL_VIOLATION /\
   exists byte0, Buffer.readUInt8 buf p = Ok byte0 /\ 240 <= byte0).
Proof.
  unfold parseLongHeader. intros H.
  destruct (Buffer.readUInt8 buf p) as [byte0|e'] eqn:E0; cbn [bind] in H;
    [|injection H as <-; left; exact (readUInt8_throws _ _ E0)].
  destruct (readUInt8_range _ _ E0) as [_ Hr].
  rewrite type_of_first_octet in H by exact Hr.
  destruct (Z.leb_spec 240 byte0) as [Hge|Hlt].
  - injection H as <-. right. eauto.
  - left. destruct (VersionValidation.IsVersionNegotationFlag _).
    + exact (parseVersionNegotiationHeader_throws _ _ _ H).
    + destruct (Buffer.readUInt8 buf (p + 1 + 4)) as [c|e'] eqn:E1;
        cbn [bind] in H;
        [|injection H as <-; exact (readUInt8_throws _ _ E1)].
      destruct (readUInt8_range _ _ E1) as [_ Hc].
      destruct (decodeConLengths c) as [dcil scil] eqn:P.
      destruct (newConnectionID_nibbles Hc P) as [Hd Hs].
      rewrite Hd in H. cbn [bind] in H. rewrite Hs in H. cbn [bind] in H.
      destruct (parseInitialToken _ _ _) as [[tokens off]|e'] eqn:E2;
        cbn [bind] in H;
        [|injection H as <-; exact (parseInitialToken_throws _ _ _ E2)].
      throw_in H.
Qed.

(** What [parseHeader] throws, and on which path. *)
Lemma parseHeader_throws (buf : Buffer.t) (start : Z) (e : Error) :
  parseHeader buf start = Throw e ->
  e = RangeError \/
  (e = QuicError PROTOCOL_VIOLATION /\
   exists byte0, Buffer.readUInt8 buf start = Ok byte0 /\ 240 <= byte0) \/
  (e = ConstructionError /\
   exists byte0 dcil,
     Buffer.readUInt8 buf start = Ok byte0 /\ byte0 < 128 /\
     Buffer.readUInt8 buf (start + 1) = Ok dcil /\
     validConnectionIDLength dcil = false).
Proof.
  intros H. unfold parseHeader in H.
  destruct (Buffer.readUInt8 buf start) as [b|e'] eqn:E; cbn [bind] in H;
    [|injection H as <-; left; exact (readUInt8_throws _ _ E)].
  destruct (readUInt8_range _ _ E) as [_ Hr].
  rewrite long_bit_of_first_octet in H by exact Hr.
  destruct (Z.leb_spec 128 b) as [Hlong|Hshort].
  - destruct (parseLongHeader_throws _ _ H) as [->|[-> [b' [Hb Hge]]]];
      [left; reflexivity|].
    right. left. split; [reflexivity|]. exists b'. rewrite <- E. auto.
  - destruct (parseShortHeader_throws _ _ H) as [->|[-> [dcil [Hd Hv]]]];
      [left; reflexivity|].
    right. right. split; [reflexivity|]. exists b, dcil. auto.
Qed.


(** X3.  When a header after the first cannot be parsed, the headers found
    before it are not returned: the error of that header is the outcome of
    the whole call.  What [parse] raises is what parsing one header
    raises: a RangeError, the protocol violation, or the error of a
    connection ID refused at construction. *)
Theorem parse_errors (buf : Buffer.t) :
  (forall (first : HeaderOffset) (payloadLength : Bignum) (e : Error),
      parseHeader buf 0 = Ok first ->
      continues first = Some payloadLength ->
      offset first + payloadLength < Buffer.byteLength buf ->
      parseHeader buf (offset first + payloadLength - 4) = Throw e ->
      parse buf = Some (Throw e)) /\
  (forall e : Error,
      parse buf = Some (Throw e) ->
      e = RangeError \/ e = QuicError PROTOCOL_VIOLATION \/
      e = ConstructionError).
Proof.
  split.
  - intros first pl e E0 Hc Hlt E1. unfold parse. rewrite E0.
    destruct (length buf) as [|n] eqn:Hlen;
      [unfold Buffer.byteLength in Hlt; rewrite Hlen in Hlt;
       destruct (parseHeader_continues _ _ E0 Hc); cbn in Hlt; lia|].
    cbn [parseLoop]. rewrite Hc.
    replace (0 + pl + (offset first - 0)) with (offset first + pl) by lia.
    replace (offset first + pl <? Buffer.byteLength buf) with true
      by (symmetry; apply Z.ltb_lt; exact Hlt).
    rewrite E1. reflexivity.
  - intros e H. unfold parse in H.
    destruct (parseHeader buf 0) as [ho|e0] eqn:E0.
    + revert H. generalize (length buf) ho 0 [ho]. clear E0 ho.
      induction n as [|n IH]; intros ho total acc; cbn.
      * destruct (continues ho); [|discriminate].
        destruct (_ <? _); discriminate.
      * destruct (continues ho); [|discriminate].
        destruct (_ <? _); [|discriminate].
        destruct (parseHeader buf _) as [next|e1] eqn:E1; [apply IH|].
        intros [= <-].
        destruct (parseHeader_throws _ _ E1) as [-> | [[-> _] | [-> _]]]; auto.
    + injection H as <-.
      destruct (parseHeader_throws _ _ E0) as [-> | [[-> _] | [-> _]]]; auto.
Qed.

(** The datagram of a Handshake packet with a one-octet packet number and
    a short-header packet: the header parsed at offset 9 fails, and so does
    the call. *)
Lemma parse_errors_witness :
  parse (Samples.handshake_pn1' ++ Samples.short_packet)
  = Some (Throw (QuicError PROTOCOL_VIOLATION)).
Proof.
  destruct (parseHeader (Samples.handshake_pn1' ++ Samples.short_packet) 0)
    as [first|e] eqn:E0; [|discriminate E0].
  apply (proj1 (parse_errors (Samples.handshake_pn1' ++ Samples.short_packet))
           first 5 (QuicError PROTOCOL_VIOLATION) E0);
    injection E0 as <-; reflexivity.
Defined.

End Errors.

(* ================================================================= *)
(** ** The shape of a result of [parse] *)

Section ResultShape.

Import HeaderParser Datagram.

Lemma in_init_of_middle {A : Type} (init before after : list A) (final x : A) :
  init ++ [final] = before ++ x :: after -> after <> [] -> In x init.
Proof.
  intros H Hne.
  assert (H' : init ++ [final]
               = (before ++ x :: removelast after) ++ [last after final]).
  { rewrite <- app_assoc, <- app_comm_cons.
    rewrite <- (app_removelast_last final) by exact Hne. exact H. }
  apply app_inj_tail in H'. destruct H' as [-> _].
  apply in_or_app. right. left. reflexivity.
Qed.

(** X4.  A result of [parse] is never empty, and every entry that is
    followed by another one is a LongHeader with a payload length: a
    ShortHeader or a VersionNegotiationHeader can only be the last entry. *)
Theorem parse_only_long_goes_on (buf : Buffer.t) (result : list HeaderOffset) :
  parse buf = Some (Ok result) ->
  result <> [] /\
  (forall (before after : list HeaderOffset) (ho : HeaderOffset),
      result = before ++ ho :: after ->
      after <> [] ->
      isLong (header ho) = true /\
      exists payloadLength, continues ho = Some payloadLength).
Proof.
  intros H.
  destruct (parse_last_only _ H) as (init & final & Hr & Hall).
  split; [rewrite Hr; destruct init; discriminate|].
  intros before after ho Hsplit Hne.
  assert (Hin : In ho init)
    by (apply (@in_init_of_middle _ init before after final ho);
        [congruence | exact Hne]).
  rewrite Forall_forall in Hall. specialize (Hall _ Hin).
  split; [exact Hall|].
  pose proof (parse_entries _ H) as Hentries.
  rewrite Forall_forall in Hentries.
  destruct (Hentries ho) as [start Hs].
  { rewrite Hsplit. apply in_or_app. right. left. reflexivity. }
  destruct (parseHeader_inv _ _ Hs) as [HL | HS].
  - destruct (parseLongHeader_inv _ _ HL)
      as [[vn E] | (l & pl & E & Hpl & _)].
    + rewrite E in Hall. discriminate.
    + exists pl. unfold continues. rewrite E. exact Hpl.
  - destruct (parseShortHeader_inv _ _ HS) as (s & E & _).
    rewrite E in Hall. discriminate.
Qed.

(** A Handshake packet followed by a short-header packet: the entry before
    the last is a LongHeader. *)
Lemma parse_only_long_goes_on_witness :
  exists first second,
    parse (Samples.handshake_pn4 ++ Samples.short_packet)
    = Some (Ok [first; second]) /\
    isLong (header first) = true /\
    isShort (header second) = true.
Proof.
  destruct (parse (Samples.handshake_pn4 ++ Samples.short_packet))
    as [[result|e]|] eqn:E; try discriminate E.
  destruct (proj2 (@parse_only_long_goes_on _ result E)
              [] (tl result) (hd (mkHeaderOffset
                                    (HVersionNegotiation
                                       (mkVersionNegotiationHeader
                                          (mkConnectionID [] 0)
                                          (mkConnectionID [] 0))) 0) result))
    as [Hlong _];
    injection E as <-; try reflexivity; try discriminate.
  do 2 eexists. split; [reflexivity|]. split; [exact Hlong | reflexivity].
Defined.

(** X5.  When the first header parses, [parse] returns that header alone
    exactly when it is not a LongHeader or its offset plus its payload
    length reaches the end of the datagram; nothing that lies before that
    point is looked at again. *)
Theorem parse_single_entry (buf : Buffer.t) (first : HeaderOffset) :
  parseHeader buf 0 = Ok first ->
  (parse buf = Some (Ok [first]) <->
   forall payloadLength,
     continues first = Some payloadLength ->
     Buffer.byteLength buf <= offset first + payloadLength).
Proof.
  intros E0. rewrite parseTrace_erase. unfold parseTrace. rewrite E0. split.
  - intros H pl Hc.
    destruct (Z.le_gt_cases (Buffer.byteLength buf) (offset first + pl))
      as [Hle | Hgt]; [exact Hle | exfalso].
    destruct (length buf) as [|n] eqn:Hlen;
      [unfold Buffer.byteLength in Hgt; rewrite Hlen in Hgt;
       destruct (parseHeader_continues _ _ E0 Hc); cbn in Hgt; lia|].
    destruct (parseHeader buf (offset first + pl - 4)) as [next|e] eqn:E1.
    + rewrite (@parseLoopTrace_step buf n first next 0 pl [(0, first)] Hc)
        in H by (lia || exact E1).
      destruct (parseLoopTrace n buf next _ _) as [[trace|e]|] eqn:Et;
        try discriminate H.
      destruct (parseLoopTrace_prefix _ _ _ _ _ Et) as [rest ->].
      cbn in H. discriminate H.
    + cbn [parseLoopTrace] in H. rewrite Hc in H.
      replace (0 + pl + (offset first - 0)) with (offset first + pl) in H
        by lia.
      replace (offset first + pl <? Buffer.byteLength buf) with true in H
        by (symmetry; apply Z.ltb_lt; lia).
      rewrite E1 in H. discriminate H.
  - intros Hstop. rewrite parseLoopTrace_done by exact Hstop. reflexivity.
Qed.

(** A version negotiation packet: one entry, whatever follows the
    connection IDs. *)
Lemma parse_single_entry_witness :
  exists vn,
    parse Samples.version_negotiation
    = Some (Ok [mkHeaderOffset (HVersionNegotiation vn) 6]).
Proof.
  eexists.
  apply (proj2 (@parse_single_entry Samples.version_negotiation _ eq_refl)).
  intros pl Hc. discriminate Hc.
Defined.

(** Two Handshake packets, the first with a one-octet packet number: the
    second header was parsed three octets before the end of the first
    packet. *)
Lemma second_start_vs_packet_end_witness :
  exists first,
    parseHeader (Samples.handshake_pn1 ++ Samples.handshake_pn4) 0 = Ok first /\
    packetEnd (Samples.handshake_pn1 ++ Samples.handshake_pn4) 0 first
    = Some (9 + (4 - 1)).
Proof.
  destruct (parseTrace (Samples.handshake_pn1 ++ Samples.handshake_pn4))
    as [[trace|e]|] eqn:E; try discriminate E.
  destruct trace as [|[s1 first] [|[s2 second] rest]];
    try discriminate E.
  exists first. split; [injection E as _ <- _ _ _; reflexivity|].
  apply (@second_start_vs_packet_end
           (Samples.handshake_pn1 ++ Samples.handshake_pn4)
           first second 9 1 rest);
    [|reflexivity].
  injection E as <- <- <- <- <-. reflexivity.
Defined.

End ResultShape.

(* ================================================================= *)
(** ** Slices and copies *)

Section SlicesAndCopies.

Lemma skipn_repeat {A : Type} (x : A) (k n : nat) :
  skipn k (repeat x n) = repeat x (n - k).
Proof.
  revert n. induction k as [|k IH]; intros [|n]; cbn; auto.
Qed.

(** For indices that are not negative a slice is the part of the buffer
    between them, cut off at the end of the buffer. *)
Lemma slice_nonneg (b : Buffer.t) (start stop : Z) :
  0 <= start -> 0 <= stop ->
  Buffer.slice b start stop
  = firstn (Z.to_nat (stop - start)) (skipn (Z.to_nat start) b).
Proof.
  intros Hs He. unfold Buffer.slice, Buffer.clampIndex, Buffer.byteLength.
  replace (start <? 0) with false by (symmetry; apply Z.ltb_ge; lia).
  replace (stop <? 0) with false by (symmetry; apply Z.ltb_ge; lia).
  destruct (Z.le_gt_cases start (Z.of_nat (length b))) as [Hin | Hout].
  - rewrite (Z.min_l start) by lia.
    destruct (Z.le_gt_cases stop (Z.of_nat (length b))) as [Hin' | Hout'].
    + rewrite Z.min_l by lia. reflexivity.
    + rewrite Z.min_r by lia.
      rewrite !firstn_all2; [reflexivity | |]; rewrite length_skipn; lia.
  - rewrite (Z.min_r start) by lia.
    rewrite !skipn_all2 by lia. rewrite !firstn_nil. reflexivity.
Qed.

Lemma slice_byteLength (b : Buffer.t) (start stop : Z) :
  0 <= start -> 0 <= stop ->
  Buffer.byteLength (Buffer.slice b start stop)
  = Z.max 0 (Z.min stop (Buffer.byteLength b) - start).
Proof.
  intros Hs He. rewrite slice_nonneg by assumption.
  unfold Buffer.byteLength. rewrite length_firstn, length_skipn. lia.
Qed.

(** Copying [n] octets from [start] into a fresh buffer of [n] octets
    gives the slice from [start], followed by zeros where the source ran
    out. *)
Lemma copy_into_blank (source : Buffer.t) (n start : Z) :
  0 <= n -> 0 <= start <= Buffer.byteLength source ->
  Buffer.copy source (repeat x00 (Z.to_nat n)) 0 start (start + n)
  = Ok (Buffer.slice source start (start + n)
        ++ repeat x00 (Z.to_nat n
                       - length (Buffer.slice source start (start + n)))).
Proof.
  intros Hn Hs. unfold Buffer.copy.
  replace ((0 <? 0) || (start <? 0)) with false
    by (symmetry; apply orb_false_iff; lia).
  assert (Hlen : Buffer.byteLength (repeat x00 (Z.to_nat n)) = n)
    by (unfold Buffer.byteLength; rewrite repeat_length; lia).
  pose proof (@slice_byteLength source start (start + n)
                ltac:(lia) ltac:(lia)) as Hsl.
  unfold Buffer.byteLength in Hsl.
  rewrite Hlen.
  destruct (Z.eq_dec n 0) as [-> | Hpos].
  - replace ((0 <=? 0) || (start + 0 <=? start)) with true by reflexivity.
    cbn [Z.to_nat repeat].
    assert (Hnil : Buffer.slice source start (start + 0) = []).
    { apply length_zero_iff_nil. lia. }
    rewrite Hnil. reflexivity.
  - replace ((n <=? 0) || (start + n <=? start)) with false
      by (symmetry; apply orb_false_iff; lia).
    replace (Buffer.byteLength source <? start) with false
      by (symmetry; apply Z.ltb_ge; lia).
    cbn [Z.to_nat firstn app Nat.add].
    rewrite firstn_all2 by lia.
    rewrite skipn_repeat. reflexivity.
Qed.

End SlicesAndCopies.

(* ================================================================= *)
(** ** Short headers *)

Section ShortHeaders.

Import HeaderParser Datagram.





End ShortHeaders.

(* ================================================================= *)
(** ** The layout of a long header *)

Section LongHeaderLayout.

Import HeaderParser Datagram.

Lemma copy_range (source : Buffer.t) (start stop : Z) :
  0 <= start <= stop -> stop <= Buffer.byteLength source ->
  Buffer.copy source (repeat x00 (Z.to_nat (stop - start))) 0 start stop
  = Ok (Buffer.slice source start stop).
Proof.
  intros H1 H2.
  pose proof (@copy_into_blank source (stop - start) start
                ltac:(lia) ltac:(lia)) as H.
  replace (start + (stop - start)) with stop in H by lia.
  rewrite H.
  pose proof (@slice_length source start stop H1 H2) as Hl.
  unfold Buffer.byteLength in Hl.
  replace (Z.to_nat (stop - start) - length (Buffer.slice source start stop))%nat
    with 0%nat by lia.
  cbn [repeat]. rewrite app_nil_r. reflexivity.
Qed.

Lemma alloc_ok (size : Z) (blank : Buffer.t) :
  Buffer.alloc size = Ok blank ->
  0 <= size <= Buffer.kMaxLength /\ blank = repeat x00 (Z.to_nat size).
Proof.
  unfold Buffer.alloc. destruct (_ || _) eqn:C; [discriminate|].
  apply orb_false_iff in C. intros [= <-]. split; [lia | reflexivity].
Qed.

Lemma long_first_octet (byte0 : Z) :
  0 <= byte0 < 256 -> 192 <= byte0 ->
  Z.land (byte0 - 192) 3 + 1 = pnLengthOf byte0 /\
  Z.shiftr (byte0 - 192) 4 = Z.land (Z.shiftr byte0 4) 3.
Proof.
  revert byte0. apply (octet_cases
    (fun b => 192 <= b ->
              Z.land (b - 192) 3 + 1 = pnLengthOf b /\
              Z.shiftr (b - 192) 4 = Z.land (Z.shiftr b 4) 3)).
  intros x. destruct x; intros H; try (split; reflexivity);
    exfalso; revert H; apply Z.lt_nge; reflexivity.
Qed.

Lemma long_pnLength (byte0 : Z) :
  0 <= byte0 < 256 -> Z.land (byte0 - 192) 3 + 1 = pnLengthOf byte0.
Proof.
  revert byte0. apply octet_cases. intros x. destruct x; reflexivity.
Qed.

(** Where each field of a returned LongHeader comes from. *)
Lemma parseLongHeader_layout (buf : Buffer.t) (p : Z) (ho : HeaderOffset)
    (l : LongHeader) :
  parseLongHeader buf p = Ok ho ->
  header ho = HLong l ->
  exists byte0 c d s tokenEnd pl plEnd,
    Buffer.readUInt8 buf p = Ok byte0 /\
    byte0 < 240 /\
    Buffer.readUInt8 buf (p + 1 + 4) = Ok c /\
    decodeConLengths c = (d, s) /\
    parseInitialToken buf (lhType l) (p + 1 + 4 + 1 + d + s)
    = Ok (lhInitialTokens l, tokenEnd) /\
    VLIE.decode buf tokenEnd = Ok (pl, plEnd) /\
    lhType l = Z.shiftr (byte0 - 192) 4 /\
    lhVersion l = mkVersion (Buffer.slice buf (p + 1) (p + 1 + 4)) /\
    VersionValidation.IsVersionNegotationFlag (lhVersion l) = false /\
    lhDestConnectionID l
    = mkConnectionID (Buffer.slice buf (p + 1 + 4 + 1) (p + 1 + 4 + 1 + d)) d /\
    lhSrcConnectionID l
    = mkConnectionID (Buffer.slice buf (p + 1 + 4 + 1 + d)
                                   (p + 1 + 4 + 1 + d + s)) s /\
    lhPayloadLength l = Some pl /\
    lhPayloadLengthBuffer l = Buffer.slice buf tokenEnd plEnd /\
    lhTruncatedPacketNumber l
    = Some (PacketNumberOfBuffer
              (Buffer.slice buf plEnd (plEnd + pnLengthOf byte0))) /\
    offset ho = plEnd + pnLengthOf byte0.
Proof.
  unfold parseLongHeader. intros H Hl. steps_in H.
  - destruct (parseVersionNegotiationHeader_inv _ _ _ H) as [vn Hvn].
    congruence.
  - injection H as <-. cbn [header offset] in *. injection Hl as <-.
    destruct (readUInt8_range _ _ E) as [_ Hr].
    rewrite type_of_first_octet in C by exact Hr. apply Z.leb_gt in C.
    destruct (decode_range _ _ E2) as (Hz1 & Hz3 & _).
    destruct (@alloc_ok _ _ E3) as [_ ->].
    rewrite copy_range in E4 by lia. injection E4 as <-.
    rewrite long_pnLength by exact Hr.
    exists a, a0, z, z0, z1, z2, z3.
    destruct o; cbn; repeat (split; [first [assumption | reflexivity]|]);
      reflexivity.
Qed.

End LongHeaderLayout.

(* ================================================================= *)
(** ** What a returned LongHeader holds *)

Section LongHeaderFields.

Import HeaderParser Datagram.

Lemma parseHeader_long (buf : Buffer.t) (start : Z) (ho : HeaderOffset)
    (l : LongHeader) :
  parseHeader buf start = Ok ho ->
  header ho = HLong l ->
  parseLongHeader buf start = Ok ho /\
  exists byte0, Buffer.readUInt8 buf start = Ok byte0 /\ 128 <= byte0.
Proof.
  intros H Hl. unfold parseHeader in H.
  destruct (Buffer.readUInt8 buf start) as [b|] eqn:E; [|discriminate].
  cbn [bind] in H. destruct (readUInt8_range _ _ E) as [_ Hr].
  rewrite long_bit_of_first_octet in H by exact Hr.
  destruct (Z.leb_spec 128 b).
  - split; [exact H | eauto].
  - destruct (parseShortHeader_inv _ _ H) as (s & Hs & _). congruence.
Qed.

Lemma slice_slice (b : Buffer.t) (start stop i j : Z) :
  0 <= start <= stop -> stop <= Buffer.byteLength b ->
  0 <= i <= j -> j <= stop - start ->
  Buffer.slice (Buffer.slice b start stop) i j
  = Buffer.slice b (start + i) (start + j).
Proof.
  intros H1 H2 H3 H4.
  rewrite (@slice_in_range (Buffer.slice b start stop) i j)
    by (rewrite ?slice_length; lia).
  rewrite (@slice_in_range b start stop) by lia.
  rewrite (@slice_in_range b (start + i) (start + j)) by lia.
  rewrite skipn_firstn_comm, firstn_firstn, skipn_skipn.
  f_equal; [lia | f_equal; lia].
Qed.

Lemma width_of_first_octet (first : Z) :
  0 <= first < 256 ->
  let width := 2 ^ Z.shiftr first 6 in
  width = 1 \/ width = 2 \/ width = 4 \/ width = 8.
Proof.
  revert first. apply octet_cases. intros x.
  destruct x; cbv zeta; auto.
Qed.

(** Decoding the octets a variable-length integer was read from gives the
    same value and uses all of them. *)
Lemma decode_slice (buf : Buffer.t) (off value stop : Z) :
  VLIE.decode buf off = Ok (value, stop) ->
  VLIE.decode (Buffer.slice buf off stop) 0 = Ok (value, stop - off) /\
  (stop - off = 1 \/ stop - off = 2 \/ stop - off = 4 \/ stop - off = 8).
Proof.
  intros H. pose proof (decode_range _ _ H) as (Hoff & Hstop & _).
  unfold VLIE.decode in *.
  destruct (Buffer.readUInt8 buf off) as [first|] eqn:E; [|discriminate].
  cbn [bind] in H. destruct (readUInt8_range _ _ E) as [_ Hr].
  destruct (_ <? _) eqn:C; [discriminate|]. injection H as <- <-.
  pose proof (width_of_first_octet Hr) as Hw. cbv zeta in Hw.
  set (width := 2 ^ Z.shiftr first 6) in *.
  split; [|replace (off + width - off) with width by lia; exact Hw].
  rewrite slice_readUInt8 by lia. rewrite Z.add_0_r, E. cbn [bind].
  fold width. rewrite slice_length by lia.
  replace (off + width - off <? 0 + width) with false
    by (symmetry; apply Z.ltb_ge; lia).
  rewrite slice_slice by lia.
  replace (off + (0 + 1)) with (off + 1) by lia.
  replace (off + (0 + width)) with (off + width) by lia.
  replace (0 + width) with (off + width - off) by lia.
  reflexivity.
Qed.

(** X7.  In a returned LongHeader nothing but the packet number can be
    cut short.  The version has four octets, both connection IDs have the
    number of octets the length octet announces, and everything up to the
    end of the payload-length field lies inside the datagram; the packet
    number is given the octets that are left, up to the number the first
    octet announces, and the offset counts that number in any case. *)
Theorem long_header_fields_are_complete (buf : Buffer.t) (start : Z)
    (ho : HeaderOffset) (l : LongHeader) :
  parseHeader buf start = Ok ho ->
  header ho = HLong l ->
  exists byte0 octets,
    Buffer.readUInt8 buf start = Ok byte0 /\
    128 <= byte0 < 240 /\
    Buffer.byteLength (versionBuffer (lhVersion l)) = 4 /\
    Buffer.byteLength (cidBuffer (lhDestConnectionID l))
    = cidLength (lhDestConnectionID l) /\
    Buffer.byteLength (cidBuffer (lhSrcConnectionID l))
    = cidLength (lhSrcConnectionID l) /\
    start + 7 + cidLength (lhDestConnectionID l)
      + cidLength (lhSrcConnectionID l) + pnLengthOf byte0 <= offset ho /\
    offset ho - pnLengthOf byte0 <= Buffer.byteLength buf /\
    lhTruncatedPacketNumber l = Some (PacketNumberOfBuffer octets) /\
    Buffer.byteLength octets
    = Z.min (pnLengthOf byte0)
            (Buffer.byteLength buf - (offset ho - pnLengthOf byte0)).
Proof.
  intros H Hl.
  destruct (parseHeader_long _ _ H Hl) as [HL (b & Eb & Hb)].
  destruct (parseLongHeader_layout _ _ HL Hl)
    as (byte0 & c & d & s & tokenEnd & pl & plEnd
        & E0 & Hlt & Ec & Hds & Htok & Hdec & _ & Hver & _ & Hdest & Hsrc
        & _ & _ & Hpn & Hoff).
  assert (b = byte0) by congruence. subst b.
  destruct (readUInt8_range _ _ E0) as [Hstart Hr].
  destruct (readUInt8_range _ _ Ec) as [_ Hc].
  destruct (decodeConLengths_nonneg (c:=c) ltac:(lia) Hds) as [Hd Hs].
  apply parseInitialToken_range in Htok.
  destruct (decode_range _ _ Hdec) as (_ & Hend & _).
  assert (Hpnr : 1 <= pnLengthOf byte0 <= 4) by apply pnLength_range.
  exists byte0. eexists. split; [exact E0|]. split; [lia|].
  rewrite Hver, Hdest, Hsrc, Hoff. cbn [versionBuffer cidBuffer cidLength].
  rewrite !slice_length by lia.
  repeat (split; [lia|]). split; [exact Hpn|].
  rewrite slice_byteLength by lia. lia.
Qed.

(** A Handshake packet that ends after its payload length: the packet
    number is empty, the offset is one past the end. *)
Lemma long_header_fields_are_complete_witness :
  exists l,
    parseHeader [xe0; x00; x00; x00; x01; x00; x05] 0
    = Ok (mkHeaderOffset (HLong l) 8) /\
    lhTruncatedPacketNumber l = Some (PacketNumberOfBuffer []).
Proof.
  destruct (parseHeader [xe0; x00; x00; x00; x01; x00; x05] 0)
    as [[[l| |] o]|] eqn:E; try discriminate E.
  destruct (@long_header_fields_are_complete _ 0 _ l E eq_refl)
    as (byte0 & octets & _ & _ & _ & _ & _ & _ & _ & Hpn & _).
  exists l. injection E as <- <-. split; reflexivity.
Defined.

End LongHeaderFields.

(* ================================================================= *)
(** ** Type, length field, token and span *)

Section LongHeaderDetails.

Import HeaderParser Datagram.

Lemma type_without_marker (byte0 : Z) :
  0 <= byte0 < 256 -> 128 <= byte0 < 192 ->
  Z.shiftr (byte0 - 192) 4 = Z.land (Z.shiftr byte0 4) 3 - 4.
Proof.
  revert byte0. apply (octet_cases
    (fun b => 128 <= b < 192 ->
              Z.shiftr (b - 192) 4 = Z.land (Z.shiftr b 4) 3 - 4)).
  intros x. destruct x; intros [H1 H2]; try reflexivity; exfalso;
    first [ revert H1; apply Z.lt_nge; reflexivity
          | revert H2; apply Z.le_ngt; discriminate ].
Qed.

(** X8.  The type of a returned LongHeader is never Retry.  When both
    form bits of the first octet are set it is the number the two type
    bits spell, 0, 1 or 2; when the second form bit is clear it is that
    number less four, a negative number. *)
Theorem long_header_type (buf : Buffer.t) (start byte0 : Z)
    (ho : HeaderOffset) (l : LongHeader) :
  parseHeader buf start = Ok ho ->
  header ho = HLong l ->
  Buffer.readUInt8 buf start = Ok byte0 ->
  lhType l <> LongHeaderType.Retry /\
  (192 <= byte0 ->
   typeBits buf start = Some (lhType l) /\ 0 <= lhType l <= 2) /\
  (byte0 < 192 ->
   typeBits buf start = Some (lhType l + 4) /\ -4 <= lhType l <= -1).
Proof.
  intros H Hl E.
  destruct (parseHeader_long _ _ H Hl) as [HL (b & Eb & Hb)].
  destruct (parseLongHeader_layout _ _ HL Hl)
    as (b' & c & d & s & tokenEnd & pl & plEnd
        & E0 & Hlt & _ & _ & _ & _ & Hty & _).
  assert (b = byte0) by congruence. assert (b' = byte0) by congruence.
  subst b b'. destruct (readUInt8_range _ _ E) as [_ Hr].
  unfold typeBits, octetAt. rewrite E. cbn [option_map]. rewrite Hty.
  assert (Hbits : 0 <= Z.land (Z.shiftr byte0 4) 3 <= 3).
  { change 3 with (Z.ones 2) at 1 2. rewrite Z.land_ones by lia.
    pose proof (Z.mod_pos_bound (Z.shiftr byte0 4) (2 ^ 2) ltac:(lia)).
    change (2 ^ 2) with 4 in *. lia. }
  pose proof (@type_of_first_octet byte0 Hr) as Hretry.
  replace (240 <=? byte0) with false in Hretry
    by (symmetry; apply Z.leb_gt; exact Hlt).
  apply Z.eqb_neq in Hretry. split; [exact Hretry|]. split.
  - intros Hm. destruct (long_first_octet Hr Hm) as [_ Heq].
    rewrite Heq in *. unfold LongHeaderType.Retry in Hretry.
    split; [reflexivity | lia].
  - intros Hm. rewrite (@type_without_marker byte0 Hr ltac:(lia)).
    split; [f_equal; lia | lia].
Qed.

(** A 0-RTT packet: type bits 01. *)
Lemma long_header_type_witness :
  exists l,
    parseHeader [xd0; x00; x00; x00; x01; x00; x01; x07] 0
    = Ok (mkHeaderOffset (HLong l) 8) /\
    lhType l = LongHeaderType.Protected0RTT.
Proof.
  destruct (parseHeader [xd0; x00; x00; x00; x01; x00; x01; x07] 0)
    as [[[l| |] o]|] eqn:E; try discriminate E.
  destruct (@long_header_type _ 0 208 _ l E eq_refl eq_refl)
    as (_ & Hmarker & _).
  destruct (Hmarker ltac:(lia)) as [Hty _].
  exists l. split; [injection E as <- <-; reflexivity|].
  injection Hty as <-. reflexivity.
Defined.

(** X9.  The octets kept as the payload-length buffer of a LongHeader are
    the 1, 2, 4 or 8 octets the payload length was decoded from, the ones
    right before the packet number: decoding them again gives the payload
    length of the header and uses them all. *)
Theorem payload_length_buffer_decodes_back (buf : Buffer.t) (start byte0 : Z)
    (ho : HeaderOffset) (l : LongHeader) :
  parseHeader buf start = Ok ho ->
  header ho = HLong l ->
  Buffer.readUInt8 buf start = Ok byte0 ->
  exists payloadLength width,
    lhPayloadLength l = Some payloadLength /\
    (width = 1 \/ width = 2 \/ width = 4 \/ width = 8) /\
    lhPayloadLengthBuffer l
    = Buffer.slice buf (offset ho - pnLengthOf byte0 - width)
                   (offset ho - pnLengthOf byte0) /\
    Buffer.byteLength (lhPayloadLengthBuffer l) = width /\
    VLIE.decode (lhPayloadLengthBuffer l) 0 = Ok (payloadLength, width).
Proof.
  intros H Hl E.
  destruct (parseHeader_long _ _ H Hl) as [HL _].
  destruct (parseLongHeader_layout _ _ HL Hl)
    as (b' & c & d & s & tokenEnd & pl & plEnd
        & E0 & _ & _ & _ & _ & Hdec & _ & _ & _ & _ & _ & Hpl & Hbuf & _
        & Hoff).
  assert (b' = byte0) by congruence. subst b'.
  destruct (decode_range _ _ Hdec) as (Hs & He & _).
  destruct (decode_slice _ _ Hdec) as [Hback Hw].
  exists pl, (plEnd - tokenEnd).
  split; [exact Hpl|]. split; [exact Hw|].
  rewrite Hbuf, Hoff. split; [f_equal; lia|].
  split; [apply slice_length; lia | exact Hback].
Qed.

(** A payload length of 300 in its two-octet form 41 2c. *)
Lemma payload_length_buffer_decodes_back_witness :
  exists l,
    parseHeader [xe0; x00; x00; x00; x01; x00; x41; x2c; x07] 0
    = Ok (mkHeaderOffset (HLong l) 9) /\
    lhPayloadLengthBuffer l = [x41; x2c] /\
    VLIE.decode (lhPayloadLengthBuffer l) 0 = Ok (300, 2).
Proof.
  destruct (parseHeader [xe0; x00; x00; x00; x01; x00; x41; x2c; x07] 0)
    as [[[l| |] o]|] eqn:E; try discriminate E.
  destruct (@payload_length_buffer_decodes_back _ 0 224 _ l E eq_refl eq_refl)
    as (pl & width & Hpl & _ & Hbuf & Hlen & Hdec).
  exists l. injection E as <- <-.
  split; [reflexivity|]. split; [reflexivity|].
  rewrite Hdec. injection Hpl as <-. rewrite <- Hlen. reflexivity.
Defined.

End LongHeaderDetails.

(* ================================================================= *)
(** ** Token, span and dispatch *)

Section TokenSpanDispatch.

Import HeaderParser Datagram.

(** X10.  Only an Initial packet can carry a token, and a token is never
    empty and never cut short: it is the octets of the datagram that
    follow its length, which is read as a variable-length integer right
    after the source connection ID, and the payload length is still to
    come after it.  A token length of zero leaves the header without a
    token. *)
Theorem initial_token_is_complete (buf : Buffer.t) (start : Z)
    (ho : HeaderOffset) (l : LongHeader) :
  parseHeader buf start = Ok ho ->
  header ho = HLong l ->
  (lhType l <> LongHeaderType.Initial -> lhInitialTokens l = None) /\
  (forall tk : Buffer.t,
      lhInitialTokens l = Some tk ->
      lhType l = LongHeaderType.Initial /\
      0 < Buffer.byteLength tk <= Buffer.kMaxLength /\
      exists tokenStart,
        VLIE.decode buf (start + 6 + cidLength (lhDestConnectionID l)
                         + cidLength (lhSrcConnectionID l))
        = Ok (Buffer.byteLength tk, tokenStart) /\
        tk = Buffer.slice buf tokenStart (tokenStart + Buffer.byteLength tk) /\
        tokenStart + Buffer.byteLength tk < Buffer.byteLength buf).
Proof.
  intros H Hl.
  destruct (parseHeader_long _ _ H Hl) as [HL _].
  destruct (parseLongHeader_layout _ _ HL Hl)
    as (byte0 & c & d & s & tokenEnd & pl & plEnd
        & _ & _ & _ & _ & Htok & Hdec & _ & _ & _ & Hdest & Hsrc & _).
  rewrite Hdest, Hsrc. cbn [cidLength].
  replace (start + 6 + d + s) with (start + 1 + 4 + 1 + d + s) by lia.
  destruct (decode_range _ _ Hdec) as (_ & Hend & _).
  unfold parseInitialToken in Htok.
  destruct (Z.eqb_spec (lhType l) LongHeaderType.Initial) as [Hty | Hty].
  - split; [intros Hne; contradiction|].
    destruct (VLIE.decode buf (start + 1 + 4 + 1 + d + s))
      as [[tl tokenStart]|] eqn:Etl; [|discriminate].
    cbn [bind] in Htok. destruct (decode_range _ _ Etl) as (Hls & Hts & _).
    destruct (0 <? tl) eqn:Hpos.
    + apply Z.ltb_lt in Hpos.
      destruct (Buffer.alloc tl) as [blank|] eqn:Ea; [|discriminate].
      cbn [bind] in Htok. destruct (@alloc_ok _ _ Ea) as [Hmax ->].
      destruct (Buffer.copy _ _ _ _ _) as [tokens|] eqn:Ec; [|discriminate].
      cbn [bind] in Htok. injection Htok as Htk <-.
      replace tl with (tokenStart + tl - tokenStart) in Ec at 1 by lia.
      rewrite copy_range in Ec by lia. injection Ec as <-.
      intros tk Hsome. assert (tk = Buffer.slice buf tokenStart (tokenStart + tl))
        by congruence. subst tk.
      rewrite slice_length by lia.
      replace (tokenStart + tl - tokenStart) with tl by lia.
      split; [exact Hty|]. split; [lia|].
      exists tokenStart. split; [reflexivity|]. split; [reflexivity | lia].
    + injection Htok as Hnone _. intros tk Hsome. congruence.
  - injection Htok as Hnone _. split; [intros _; congruence|].
    intros tk Hsome. congruence.
Qed.

(** An Initial packet with the token [aa bb]. *)
Lemma initial_token_is_complete_witness :
  exists l,
    parseHeader [xc0; x00; x00; x00; x01; x00; x02; xaa; xbb; x01; x07] 0
    = Ok (mkHeaderOffset (HLong l) 11) /\
    lhInitialTokens l = Some [xaa; xbb].
Proof.
  destruct (parseHeader
              [xc0; x00; x00; x00; x01; x00; x02; xaa; xbb; x01; x07] 0)
    as [[[l| |] o]|] eqn:E; try discriminate E.
  pose proof (proj1 (@initial_token_is_complete _ 0 _ l E eq_refl)) as Hnone.
  exists l. injection E as <- <-. split; reflexivity.
Defined.

Lemma slice_clamp (b : Buffer.t) (start stop : Z) :
  0 <= start -> 0 <= stop ->
  Buffer.slice b start stop
  = Buffer.slice b start (Z.min stop (Buffer.byteLength b)).
Proof.
  intros Hs He.
  destruct (Z.le_gt_cases stop (Buffer.byteLength b)) as [Hin | Hout].
  - rewrite Z.min_l by lia. reflexivity.
  - rewrite Z.min_r by lia. unfold Buffer.byteLength in *.
    rewrite !slice_nonneg by lia.
    rewrite !firstn_all2; [reflexivity | |]; rewrite length_skipn; lia.
Qed.

(** X11.  The raw span of a header holds the octets of the datagram from
    the start of the header to its offset or to the end of the datagram,
    whichever comes first: it is never empty, it is shorter than the
    header when the packet number was cut short, and its octet [i] is the
    octet [start + i] of the datagram. *)
Theorem parsed_span_octets (buf : Buffer.t) (start : Z) (ho : HeaderOffset)
    (span : Buffer.t) :
  parseHeader buf start = Ok ho ->
  getParsedBuffer (header ho) = Some span ->
  Buffer.byteLength span
  = Z.min (offset ho) (Buffer.byteLength buf) - start /\
  0 < Buffer.byteLength span /\
  (forall i : Z,
      0 <= i < Buffer.byteLength span ->
      Buffer.readUInt8 span i = Buffer.readUInt8 buf (start + i)).
Proof.
  intros H Hspan.
  assert (Hvn : isVersionNegotiation (header ho) = false)
    by (destruct (header ho); [reflexivity | reflexivity | discriminate]).
  destruct (parseHeader_attachments _ _ H Hvn) as (_ & Hbuf & _).
  assert (span = Buffer.slice buf start (offset ho)) by congruence. subst span.
  assert (Hstart : 0 <= start < Buffer.byteLength buf).
  { unfold parseHeader in H.
    destruct (Buffer.readUInt8 buf start) as [b|] eqn:E; [|discriminate].
    exact (proj1 (readUInt8_range _ _ E)). }
  assert (Hoff : start + 2 <= offset ho).
  { destruct (parseHeader_inv _ _ H) as [HL | HS].
    - destruct (parseLongHeader_inv _ _ HL)
        as [[vn E] | (l & pl & _ & _ & _ & Ho & _)];
        [rewrite E in Hvn; discriminate | lia].
    - destruct (parseShortHeader_inv _ _ HS) as (s & _ & Ho & _). lia. }
  rewrite slice_clamp by lia.
  rewrite slice_length by lia.
  split; [reflexivity|]. split; [lia|].
  intros i Hi. apply slice_readUInt8; lia.
Qed.

(** A Handshake header whose packet number is cut short by three octets:
    the span has the nine octets of the datagram, not the twelve of the
    header. *)
Lemma parsed_span_octets_witness :
  exists ho span,
    parseHeader [xe3; x00; x00; x00; x01; x00; x41; x2c; x07] 0 = Ok ho /\
    offset ho = 12 /\
    getParsedBuffer (header ho) = Some span /\
    Buffer.byteLength span = 9.
Proof.
  destruct (parseHeader [xe3; x00; x00; x00; x01; x00; x41; x2c; x07] 0)
    as [ho|] eqn:E; [|discriminate E].
  destruct (getParsedBuffer (header ho)) as [span|] eqn:Es;
    [|injection E as <-; discriminate Es].
  exists ho, span. split; [reflexivity|].
  destruct (@parsed_span_octets _ 0 ho span E Es) as (Hlen & _).
  split; [injection E as <-; reflexivity|]. split; [exact Es|].
  rewrite Hlen. injection E as <-. reflexivity.
Defined.

(** X12.  What kind of header comes back is decided by the first octet
    and the version alone: a ShortHeader when the first bit is clear; on
    the long-header path, where the first octet is below 0xF0 whenever a
    header comes back, a VersionNegotiationHeader when the four octets
    after it are zero and a LongHeader otherwise. *)
Theorem parseHeader_kind (buf : Buffer.t) (start byte0 : Z)
    (ho : HeaderOffset) :
  Buffer.readUInt8 buf start = Ok byte0 ->
  parseHeader buf start = Ok ho ->
  (byte0 < 128 /\ isShort (header ho) = true) \/
  (128 <= byte0 < 240 /\ versionIsZero buf start = true /\
   isVersionNegotiation (header ho) = true) \/
  (128 <= byte0 < 240 /\ versionIsZero buf start = false /\
   isLong (header ho) = true).
Proof.
  intros E H. destruct (readUInt8_range _ _ E) as [_ Hr].
  unfold parseHeader in H. rewrite E in H. cbn [bind] in H.
  rewrite long_bit_of_first_octet in H by exact Hr.
  destruct (Z.leb_spec 128 byte0) as [Hlong | Hshort].
  - right. unfold parseLongHeader in H. rewrite E in H. cbn [bind] in H.
    rewrite type_of_first_octet in H by exact Hr.
    destruct (Z.leb_spec 240 byte0) as [Hretry | Hok]; [discriminate|].
    unfold versionIsZero. replace (start + 5) with (start + 1 + 4) by lia.
    destruct (VersionValidation.IsVersionNegotationFlag _) eqn:Hz.
    + left. destruct (parseVersionNegotiationHeader_inv _ _ _ H) as [vn ->].
      repeat split; lia.
    + right. steps_in H. injection H as <-. repeat split; lia.
  - left. destruct (parseShortHeader_inv _ _ H) as (s & -> & _).
    split; [lia | reflexivity].
Qed.

(** The same first octet with a zero and with a nonzero version. *)
Lemma parseHeader_kind_witness :
  exists vn l,
    parseHeader [xe0; x00; x00; x00; x00; x00] 0
    = Ok (mkHeaderOffset (HVersionNegotiation vn) 6) /\
    parseHeader [xe0; x00; x00; x00; x01; x00; x00] 0
    = Ok (mkHeaderOffset (HLong l) 8).
Proof.
  destruct (parseHeader [xe0; x00; x00; x00; x00; x00] 0)
    as [ho1|] eqn:E1; [|discriminate E1].
  destruct (parseHeader [xe0; x00; x00; x00; x01; x00; x00] 0)
    as [ho2|] eqn:E2; [|discriminate E2].
  destruct (@parseHeader_kind [xe0; x00; x00; x00; x00; x00] 0 224 ho1
              eq_refl E1)
    as [[Hc _] | [(_ & _ & Hvn) | (_ & Hz & _)]];
    [lia | | vm_compute in Hz; discriminate Hz].
  destruct (@parseHeader_kind [xe0; x00; x00; x00; x01; x00; x00] 0 224 ho2
              eq_refl E2)
    as [[Hc _] | [(_ & Hz & _) | (_ & _ & Hl)]];
    [lia | vm_compute in Hz; discriminate Hz |].
  injection E1 as <-. injection E2 as <-. do 2 eexists. split; reflexivity.
Defined.

End TokenSpanDispatch.

(* ================================================================= *)
(** ** More on the packet factory *)

Section FactoryMore.

Import PacketFactory.

Variable INITIAL_MIN_SIZE : Z.
Variable DEFAULT_AEAD_LENGTH : Z.
Variable SUPPORTED_VERSIONS : list string.
Variable headerSize : LongHeader -> Z.

Lemma fold_left_push {A B : Type} (f : A -> B) (l : list A) (init : list B) :
  fold_left (fun acc x => acc ++ [f x]) l init = init ++ map f l.
Proof.
  revert init. induction l as [|x l IH]; intros init; cbn.
  - symmetry. apply app_nil_r.
  - rewrite IH, <- app_assoc. reflexivity.
Qed.

(** X13.  The versions a version negotiation packet offers are the
    supported versions, one for one and in their order, each decoded from
    its hexadecimal spelling; neither the draw nor the connection has a
    say in them.  The header echoes the destination connection ID of the
    connection and, as source, its initial destination connection ID. *)
Theorem offered_versions_are_the_supported_ones (draw : Z)
    (connection : Connection) :
  exists h,
    createVersionNegotiationPacket SUPPORTED_VERSIONS draw connection
    = VersionNegotiationPacket
        h (map (fun version => mkVersion (Buffer.fromHex version))
               SUPPORTED_VERSIONS) /\
    vnDestConnectionID h = getDestConnectionID connection /\
    vnSrcConnectionID h = getInitialDestConnectionID connection.
Proof.
  unfold createVersionNegotiationPacket. rewrite fold_left_push.
  eexists. split; [reflexivity|]. split; reflexivity.
Qed.

(** X14.  The frames of a returned Initial packet are the frames given,
    followed by at most one frame, a padding frame.  Measuring the packet
    with the header as it was before the payload length was set: below the
    minimum the padding frame has the length of the shortfall and brings
    the packet to the minimum exactly; at the minimum or above nothing is
    added. *)
Theorem initial_padding_fills_to_minimum (connection : Connection)
    (f : BaseFrame) (fs : list BaseFrame) :
  exists h frames,
    createInitialPacket INITIAL_MIN_SIZE DEFAULT_AEAD_LENGTH headerSize
                        connection (f :: fs)
    = Ok (InitialPacket h frames) /\
    let before := getSize headerSize (setPayloadLength h 0) (f :: fs) in
    (before < INITIAL_MIN_SIZE ->
     frames = (f :: fs) ++ [PaddingFrame (INITIAL_MIN_SIZE - before)] /\
     getSize headerSize (setPayloadLength h 0) frames = INITIAL_MIN_SIZE) /\
    (INITIAL_MIN_SIZE <= before -> frames = f :: fs).
Proof.
  unfold createInitialPacket. cbn [nth_error bind].
  do 2 eexists. split; [reflexivity|]. cbv zeta.
  unfold setPayloadLength. cbn [lhType lhDestConnectionID
    lhSrcConnectionID lhPacketNumber lhVersion].
  match goal with |- context [if ?c then _ else _] => destruct c eqn:C end.
  - apply Z.ltb_lt in C. split; [|intros H; lia].
    intros _. split; [reflexivity|].
    unfold getSize in *. rewrite getFrameSizes_app, getFrameSizes_padding; lia.
  - apply Z.ltb_ge in C. split; [intros H; lia|]. reflexivity.
Qed.

End FactoryMore.

(* ================================================================= *)
(** ** Version negotiation headers *)

Section VersionNegotiationHeaders.

Import HeaderParser Datagram.



End VersionNegotiationHeaders.
